(** * The UdaPlay visualization dashboard (src/visualization_dashboard.py)

    A shallow embedding of [VisualizationDashboard.get_collection_stats],
    [VisualizationDashboard.text_dashboard] and
    [VisualizationDashboard.test_search], and the properties of the
    aggregation and rendering logic.

    Conventions of the embedding:
    - a metadata record is a finite map from field names to values; the
      values are strings, integers and [None];
    - the frequency tables are Python dicts, which keep insertion order:
      they are association lists with unique keys, updated in place;
    - [sorted] is a stable sort; its result is the unique stable
      arrangement, computed here by insertion;
    - the quotient [count / max(...)] is a binary64 float: true division,
      float multiplication and [int()] are modelled exactly, on integers;
    - every [print] call is one constructor of [line], carrying the values
      interpolated in its f-string; a procedure returns the lines printed
      and the exception raised, if any. *)

From Stdlib Require Import ZArith List String Ascii Lia Permutation Sorted.
From stdpp Require Import base option list gmap strings pretty.

Local Open Scope Z_scope.

(** ** Python values and their conversions *)

Inductive value : Type :=
| VStr (s : string)
| VInt (n : Z)
| VNone.

Global Instance value_eq_dec : EqDecision value.
Proof. solve_decision. Defined.

(** The exceptions the modelled code can raise. *)
Inductive exn : Type :=
| ZeroDivisionError
| OverflowError
| ValueError
| TypeError.

Global Instance exn_eq_dec : EqDecision exn.
Proof. solve_decision. Defined.

(** [str(v)], also what an f-string field without format spec prints. *)
Definition py_str (v : value) : string :=
  match v with
  | VStr s => s
  | VInt n => pretty n
  | VNone => "None"
  end.

(** [format(v, "20s")]: only a [str] accepts the [s] presentation type. *)
Definition format_s (v : value) : exn + string :=
  match v with
  | VStr s => inr s
  | VInt _ => inl ValueError
  | VNone => inl TypeError
  end.

(** A metadata record, and [metadata.get(field, default)]. *)
Abbreviation metadata := (gmap string value).

Definition md_get (md : metadata) (field : string) (dflt : value) : value :=
  default dflt (md !! field).

(** ** Insertion-ordered dicts *)

Section OrderedDict.
Context {K : Type} `{EqDecision K} {V : Type}.

(** [d.get(k, dflt)] *)
Fixpoint od_get (d : list (K * V)) (k : K) (dflt : V) : V :=
  match d with
  | [] => dflt
  | (k', v) :: d' => if decide (k = k') then v else od_get d' k dflt
  end.

(** [d[k] = v]: an existing key keeps its place, a new one goes last. *)
Fixpoint od_set (d : list (K * V)) (k : K) (v : V) : list (K * V) :=
  match d with
  | [] => [(k, v)]
  | (k', v') :: d' =>
      if decide (k = k') then (k', v) :: d' else (k', v') :: od_set d' k v
  end.

(** [dict(pairs)] *)
Definition py_dict (pairs : list (K * V)) : list (K * V) :=
  fold_left (fun d kv => od_set d (fst kv) (snd kv)) pairs [].

Definition od_keys (d : list (K * V)) : list K := map fst d.
Definition od_values (d : list (K * V)) : list V := map snd d.
End OrderedDict.

(** [d[k] = d.get(k, 0) + 1] *)
Definition od_incr {K : Type} `{EqDecision K} (d : list (K * Z)) (k : K)
  : list (K * Z) :=
  od_set d k (od_get d k 0 + 1).

(** ** [sorted] *)

Section Sorted.
Context {A : Type} (lt : A -> A -> bool).

(** [x] stood before every element of [l] in the input: it passes the
    elements that are smaller and stops at the first that is not. *)
Fixpoint sorted_insert (x : A) (l : list A) : list A :=
  match l with
  | [] => [x]
  | y :: l' => if lt y x then y :: sorted_insert x l' else x :: y :: l'
  end.

Definition py_sorted (l : list A) : list A := foldr sorted_insert [] l.
End Sorted.

(** [key=lambda x: x[1], reverse=True]: larger counts first, equal counts
    in input order. *)
Definition by_count_desc {K : Type} (a b : K * Z) : bool := snd b <? snd a.

(** The order of [(str, int)] tuples. *)
Definition item_ltb (a b : string * Z) : bool :=
  match String.compare (fst a) (fst b) with
  | Lt => true
  | Eq => snd a <? snd b
  | Gt => false
  end.

(** ** The aggregator: [get_collection_stats] *)

Record counters : Type := mkCounters {
  c_platforms : list (value * Z);
  c_years : list (string * Z);
  c_genres : list (value * Z);
  c_publishers : list (value * Z)
}.

(** The body of the loop over [all_docs['metadatas']]. *)
Definition count_record (c : counters) (md : metadata) : counters :=
  let platform := md_get md "Platform" (VStr "Unknown") in
  let year := md_get md "YearOfRelease" (VStr "Unknown") in
  let genre := md_get md "Genre" (VStr "Unknown") in
  let publisher := md_get md "Publisher" (VStr "Unknown") in
  {| c_platforms := od_incr (c_platforms c) platform;
     c_years := od_incr (c_years c) (py_str year);
     c_genres := od_incr (c_genres c) genre;
     c_publishers := od_incr (c_publishers c) publisher |}.

Definition count_records (mds : list metadata) : counters :=
  fold_left count_record mds (mkCounters [] [] [] []).

(** The [stats] dict: each key is present or not. *)
Record stats : Type := mkStats {
  total_games : option Z;
  platforms : option (list (value * Z));
  years : option (list (string * Z));
  genres : option (list (value * Z));
  publishers : option (list (value * Z))
}.

Definition empty_stats : stats := mkStats None None None None None.

(** [not stats] *)
Definition stats_is_empty (s : stats) : bool :=
  match total_games s, platforms s, years s, genres s, publishers s with
  | None, None, None, None, None => true
  | _, _, _, _, _ => false
  end.

(** The collection handle: [None] when the collection was not found,
    otherwise the metadata of its documents, in the order of [get()];
    [count()] is their number. Every metadata is a mapping, and the calls
    of the store return: on such input nothing in the [try] block raises,
    and the [except] branch, which prints the error and leaves the tables
    out (as for a document stored without metadata), is not part of the
    model. *)
Definition get_collection_stats (collection : option (list metadata)) : stats :=
  match collection with
  | None => empty_stats
  | Some mds =>
      let total := Z.of_nat (length mds) in
      if 0 <? total then
        let c := count_records mds in
        {| total_games := Some total;
           platforms := Some (py_dict (py_sorted by_count_desc (c_platforms c)));
           years := Some (py_dict (py_sorted item_ltb (c_years c)));
           genres := Some (py_dict (py_sorted by_count_desc (c_genres c)));
           publishers :=
             Some (py_dict (take 10 (py_sorted by_count_desc (c_publishers c)))) |}
      else
        {| total_games := Some total;
           platforms := None; years := None; genres := None;
           publishers := None |}
  end.

(** A record written as a dict literal. *)
Definition record_of (l : list (string * value)) : metadata := list_to_map l.

(** ** Binary64 arithmetic

    A finite double is [(-1)^s * m * 2^e] with [0 <= m]; the results of
    the operations below are correctly rounded, to nearest and ties to
    even, as IEEE 754 and CPython's integer true division are. *)

Module Float64.

Inductive t : Type :=
| Finite (s : bool) (m : Z) (e : Z)
| Inf (s : bool).

(** The least exponent of a double, that of the subnormal numbers. *)
Definition emin : Z := -1074.

(** [n * 2^k] for [0 <= k], [n] for [k <= 0]. *)
Definition shl (n k : Z) : Z := n * 2 ^ Z.max 0 k.

(** [floor (log2 (n / d))] for [0 < n] and [0 < d]. *)
Definition ilog2_ratio (n d : Z) : Z :=
  let l := Z.log2 n - Z.log2 d in
  if shl d l <=? shl n (- l) then l else l - 1.

(** The exponent of the double nearest to [n / d]: the mantissa has 53
    bits, fewer for a subnormal number. *)
Definition exponent (n d : Z) : Z := Z.max emin (ilog2_ratio n d - 52).

(** The double nearest to [n / d], for [0 < n] and [0 < d], as mantissa
    and exponent; a result too large for a double is not excluded here. *)
Definition round_ratio (n d : Z) : Z * Z :=
  let e := exponent n d in
  let N := shl n (- e) in
  let D := shl d e in
  let q := N / D in
  let r := N mod D in
  let up := (D <? 2 * r) || ((D =? 2 * r) && Z.odd q) in
  (if up then q + 1 else q, e).

(** A rounded value of [2^1024] or more overflows. *)
Definition overflows (me : Z * Z) : bool :=
  (0 <? fst me) && (1024 <=? Z.log2 (fst me) + snd me).

(** The double nearest to [(-1)^s * n / d], for [0 <= n] and [0 < d]. *)
Definition of_ratio (s : bool) (n d : Z) : t :=
  if n =? 0 then Finite s 0 0
  else
    let me := round_ratio n d in
    if overflows me then Inf s else Finite s (fst me) (snd me).

(** [a / b] on two [int]s. *)
Definition int_truediv (a b : Z) : exn + t :=
  if b =? 0 then inl ZeroDivisionError
  else
    match of_ratio (xorb (a <? 0) (b <? 0)) (Z.abs a) (Z.abs b) with
    | Inf _ => inl OverflowError
    | x => inr x
    end.

(** [float(k)] on an [int], as in the mixed product [x * 20]. *)
Definition of_int (k : Z) : exn + t :=
  match of_ratio (k <? 0) (Z.abs k) 1 with
  | Inf _ => inl OverflowError
  | x => inr x
  end.

(** [x * y] on two [float]s; no operand is a NaN, and the product of a
    zero and an infinity does not arise from the callers below. *)
Definition mul (x y : t) : t :=
  match x, y with
  | Finite s1 m1 e1, Finite s2 m2 e2 =>
      of_ratio (xorb s1 s2) (shl (m1 * m2) (e1 + e2)) (shl 1 (- (e1 + e2)))
  | Finite s1 _ _, Inf s2 => Inf (xorb s1 s2)
  | Inf s1, Finite s2 _ _ => Inf (xorb s1 s2)
  | Inf s1, Inf s2 => Inf (xorb s1 s2)
  end.

(** [int(x)]: truncation towards zero. *)
Definition to_int (x : t) : exn + Z :=
  match x with
  | Finite s m e =>
      let v := shl m e / shl 1 (- e) in
      inr (if s then - v else v)
  | Inf _ => inl OverflowError
  end.

End Float64.

(** [int((count / maxc) * 20)], the number of blocks of a bar. *)
Definition bar_length (count maxc : Z) : exn + Z :=
  match Float64.int_truediv count maxc with
  | inl e => inl e
  | inr x =>
      match Float64.of_int 20 with
      | inl e => inl e
      | inr twenty => Float64.to_int (Float64.mul x twenty)
      end
  end.

(** ** Printing

    A procedure prints lines and either returns or raises. *)

Inductive line : Type :=
| Text (s : string)
| TotalGames (n : Z)
| Bar (glyph : string) (label : string) (blocks : Z) (count : Z)
| PublisherLine (publisher : string) (count : Z)
| YearRange (lo hi : Z)
| UniquePlatforms (n : Z)
| UniqueGenres (n : Z)
| UniquePublishers (n : Z)
| SearchHeading (query : string)
| ResultName (i : Z) (name : string)
| ResultPlatform (platform : string)
| ResultYear (year : string)
| ResultGenre (genre : string).

Global Instance line_eq_dec : EqDecision line.
Proof. solve_decision. Defined.

Definition Print (A : Type) : Type := list line * (exn + A).

Global Instance Print_ret : MRet Print := fun A x => ([], inr x).

Global Instance Print_bind : MBind Print := fun A B f m =>
  match m with
  | (out, inl e) => (out, inl e)
  | (out, inr x) => let '(out', r) := f x in (out ++ out', r)
  end.

Definition print (l : line) : Print unit := ([l], inr tt).

Definition lift {A : Type} (r : exn + A) : Print A := ([], r).

(** [for x in l: body] *)
Fixpoint for_each {A : Type} (l : list A) (body : A -> Print unit) : Print unit :=
  match l with
  | [] => mret tt
  | x :: l' => body x;; for_each l' body
  end.

(** [if c: body] *)
Definition when (c : bool) (body : Print unit) : Print unit :=
  if c then body else mret tt.

Definition printed {A : Type} (p : Print A) : list line := fst p.
Definition raised {A : Type} (p : Print A) : option exn :=
  match snd p with inl e => Some e | inr _ => None end.

(** ** Builtins used by the renderer *)

(** [max(l)] and [min(l)] on a list of [int]s. *)
Definition py_max (l : list Z) : exn + Z :=
  match l with
  | [] => inl ValueError
  | x :: l' => inr (fold_left Z.max l' x)
  end.

Definition py_min (l : list Z) : exn + Z :=
  match l with
  | [] => inl ValueError
  | x :: l' => inr (fold_left Z.min l' x)
  end.

Definition is_digit (c : ascii) : bool :=
  let n := nat_of_ascii c in (48 <=? n)%nat && (n <=? 57)%nat.

(** [s.isdigit()] on ASCII text: a non-empty string of the digits 0 to 9.
    A string is a string of bytes here; on a character outside ASCII
    ([isdigit] is true of every Unicode digit) the model does not follow
    Python, and the statements about the summary are made for keys of
    ASCII text, see [plain_key]. *)
Definition py_isdigit (s : string) : bool :=
  match s with
  | EmptyString => false
  | _ => forallb is_digit (list_ascii_of_string s)
  end.

(** [int(s)] for a string of ASCII decimal digits. [int] raises a
    ValueError on a digit that is not decimal and on more than 4300
    digits; the statements about the summary are made for keys within
    these bounds, see [plain_key]. *)
Definition py_int (s : string) : Z :=
  fold_left (fun acc c => 10 * acc + (Z.of_nat (nat_of_ascii c) - 48))
    (list_ascii_of_string s) 0.

(** [s * n] *)
Fixpoint str_mul (s : string) (n : nat) : string :=
  match n with
  | O => EmptyString
  | S n' => s ++ str_mul s n'
  end.

Definition nl : string := String (ascii_of_nat 10) EmptyString.

Definition nonempty {A : Type} (l : list A) : bool :=
  match l with [] => false | _ => true end.

(** The last [n] elements, [l[-n:]]. *)
Definition last_n {A : Type} (n : nat) (l : list A) : list A :=
  drop (length l - n)%nat l.

(** ** The renderer: [text_dashboard] and [test_search] *)

Record collection : Type := mkCollection {
  (** the [metadatas] of [get()], one per document *)
  col_metadatas : list metadata;
  (** [query(query_texts=[q], n_results=n)]: the ids and metadatas of the
      one query text, paired *)
  col_query : string -> Z -> list (string * metadata)
}.

(** One line of a bar chart whose bars are scaled by [maxc ()]. *)
Definition bar_line (glyph : string) (values : list Z) (label : exn + string)
    (count : Z) : Print unit :=
  maxc ← lift (py_max values);
  blocks ← lift (bar_length count maxc);
  l ← lift label;
  print (Bar glyph l blocks count).

(** [[int(y) for y in years.keys() if y != 'Unknown' and y.isdigit()]],
    for keys of ASCII text of at most 4300 characters, on which [int]
    does not raise. *)
Definition year_values (years : list (string * Z)) : list Z :=
  map py_int
    (filter (fun y => bool_decide (y <> "Unknown") && py_isdigit y)
       (od_keys years)).

(** The blocks of [text_dashboard], in the order of the source. *)

(** [# Display platforms] *)
Definition display_platforms (platforms : list (value * Z)) : Print unit :=
  when (nonempty platforms)
    (print (Text (nl ++ "🎮 GAMES BY PLATFORM"));;
     print (Text (str_mul "-" 40));;
     for_each (take 10 platforms) (fun '(platform, count) =>
       bar_line "█" (od_values platforms) (format_s platform) count)).

(** [# Display genres] *)
Definition display_genres (genres : list (value * Z)) : Print unit :=
  when (nonempty genres)
    (print (Text (nl ++ "🎯 GAMES BY GENRE"));;
     print (Text (str_mul "-" 40));;
     for_each (take 10 genres) (fun '(genre, count) =>
       bar_line "█" (od_values genres) (format_s genre) count)).

(** The entries the year section shows: [sorted(years.items())[-10:]]. *)
Definition recent_years (years : list (string * Z)) : list (string * Z) :=
  last_n 10 (py_sorted item_ltb years).

(** [# Display years] *)
Definition display_years (years : list (string * Z)) : Print unit :=
  when (nonempty years)
    (print (Text (nl ++ "📅 GAMES BY YEAR"));;
     print (Text (str_mul "-" 40));;
     for_each (recent_years years) (fun '(year, count) =>
       bar_line "▓" (od_values years) (inr year) count)).

(** [# Display top publishers] *)
Definition display_publishers (publishers : list (value * Z)) : Print unit :=
  when (nonempty publishers)
    (print (Text (nl ++ "🏢 TOP PUBLISHERS"));;
     print (Text (str_mul "-" 40));;
     for_each (take 5 publishers) (fun '(publisher, count) =>
       print (PublisherLine (py_str publisher) count))).

(** [# Summary statistics] *)
Definition summary_statistics (platforms genres : list (value * Z))
    (years : list (string * Z)) (publishers : list (value * Z)) : Print unit :=
  when (nonempty years)
    (let year_values := year_values years in
     when (nonempty year_values)
       (print (Text (nl ++ "📈 SUMMARY"));;
        print (Text (str_mul "-" 40));;
        lo ← lift (py_min year_values);
        hi ← lift (py_max year_values);
        print (YearRange lo hi);;
        print (UniquePlatforms (Z.of_nat (length platforms)));;
        print (UniqueGenres (Z.of_nat (length genres)));;
        print (UniquePublishers (Z.of_nat (length publishers))))).

Definition no_data_notice : line :=
  Text "No data available. Please run the notebooks to load game data.".

Definition header : list line :=
  [Text (nl ++ str_mul "=" 70);
   Text "🎮 UDAPLAY GAME COLLECTION DASHBOARD";
   Text (str_mul "=" 70)].

Definition footer : list line :=
  [Text (nl ++ str_mul "=" 70);
   Text "💡 This dashboard shows statistics from the ChromaDB game collection";
   Text (str_mul "=" 70 ++ nl)].

Definition print_all (ls : list line) : Print unit := for_each ls print.

(** The dashboard of given [stats], after the header. *)
Definition render_stats (stats : stats) : Print unit :=
  if stats_is_empty stats then print no_data_notice
  else
    print (Text (nl ++ "📊 COLLECTION STATISTICS"));;
    print (Text (str_mul "-" 40));;
    print (TotalGames (default 0 (total_games stats)));;
    let platforms := default [] (platforms stats) in
    display_platforms platforms;;
    let genres := default [] (genres stats) in
    display_genres genres;;
    let years := default [] (years stats) in
    display_years years;;
    let publishers := default [] (publishers stats) in
    display_publishers publishers;;
    summary_statistics platforms genres years publishers;;
    print_all footer.

Definition text_dashboard (self : option collection) : Print unit :=
  print_all header;;
  render_stats (get_collection_stats (col_metadatas <$> self)).

(** [enumerate(l, start)] *)
Fixpoint enumerate {A : Type} (l : list A) (start : Z) : list (Z * A) :=
  match l with
  | [] => []
  | x :: l' => (start, x) :: enumerate l' (start + 1)
  end.

(** [test_search]. The query returns, and the metadata of every result
    is a mapping: the [except] branch, which prints the error of a query
    that fails or of a result without metadata, is not part of the
    model. *)
Definition test_search (self : option collection) (query : string) : Print unit :=
  match self with
  | None => print (Text "Collection not available.")
  | Some c =>
      print (SearchHeading query);;
      print (Text (str_mul "-" 40));;
      let results := col_query c query 3 in
      if nonempty (map fst results) then
        print (Text "Top 3 Results:");;
        for_each (enumerate (map snd results) 1) (fun '(i, metadata) =>
          print (ResultName i (py_str (md_get metadata "Name" (VStr "Unknown"))));;
          print (ResultPlatform
                   (py_str (md_get metadata "Platform" (VStr "Unknown"))));;
          print (ResultYear
                   (py_str (md_get metadata "YearOfRelease" (VStr "Unknown"))));;
          print (ResultGenre (py_str (md_get metadata "Genre" (VStr "Unknown")))))
      else
        print (Text "No results found.")
  end.

(** ** The entry point: [__init__] and [main] *)

(** A client: [get_collection(name=...)] returns the collection of that
    name, or raises (here [None]). *)
Definition client : Type := string -> option collection.

Definition collection_not_found : line :=
  Text "Collection not found. Please run Notebook 1 first to create the collection.".

(** [VisualizationDashboard()]: the persistent client if it opens, the
    in-memory one otherwise; then the collection ["udaplay_games"], or
    [None] with a notice. The result is [self.collection]. *)
Definition init (persistent : option client) (memory : client)
  : Print (option collection) :=
  let client :=
    match persistent with
    | Some cl => cl
    | None => memory
    end in
  match client "udaplay_games" with
  | Some c => mret (Some c)
  | None => print collection_not_found;; mret None
  end.

(** The truth value of a [str] or [None], as in [if args.search:]. *)
Definition truthy (s : option string) : bool :=
  match s with
  | None => false
  | Some EmptyString => false
  | Some _ => true
  end.

(** [main], with [args.search] as [search]: [None] without the flag. *)
Definition main (persistent : option client) (memory : client)
    (search : option string) : Print unit :=
  dashboard ← init persistent memory;
  text_dashboard dashboard;;
  if truthy search then test_search dashboard (default EmptyString search)
  else test_search dashboard "racing games".

(** ** Specification-side notions *)

(** The sum of the counts of a table. *)
Definition table_sum {K : Type} (d : list (K * Z)) : Z :=
  foldr Z.add 0 (od_values d).

(** The keys of a sequence, each once, in the order of first occurrence. *)
Fixpoint first_seen {K : Type} `{EqDecision K} (l : list K) : list K :=
  match l with
  | [] => []
  | k :: l' => k :: filter (fun k' => k' <> k) (first_seen l')
  end.

(** How often [k] occurs in a sequence. *)
Definition occurrences {K : Type} `{EqDecision K} (k : K) (l : list K) : Z :=
  Z.of_nat (length (filter (fun k' => k' = k) l)).

(** The value a record is counted under, per tracked field. *)
Definition platform_of (md : metadata) : value := md_get md "Platform" (VStr "Unknown").
Definition year_of (md : metadata) : string :=
  py_str (md_get md "YearOfRelease" (VStr "Unknown")).
Definition genre_of (md : metadata) : value := md_get md "Genre" (VStr "Unknown").
Definition publisher_of (md : metadata) : value := md_get md "Publisher" (VStr "Unknown").

(** The four tracked fields. *)
Inductive tracked : Type := Platform | YearOfRelease | Genre | Publisher.

Definition field_name (f : tracked) : string :=
  match f with
  | Platform => "Platform"
  | YearOfRelease => "YearOfRelease"
  | Genre => "Genre"
  | Publisher => "Publisher"
  end.

(** The count of the ["Unknown"] bucket in the table of a field, in the
    counters of the loop and in the stored [stats]. *)
Definition unknown_count (f : tracked) (c : counters) : Z :=
  match f with
  | Platform => od_get (c_platforms c) (VStr "Unknown") 0
  | YearOfRelease => od_get (c_years c) "Unknown" 0
  | Genre => od_get (c_genres c) (VStr "Unknown") 0
  | Publisher => od_get (c_publishers c) (VStr "Unknown") 0
  end.

Definition stored_unknown_count (f : tracked) (s : stats) : Z :=
  match f with
  | Platform => od_get (default [] (platforms s)) (VStr "Unknown") 0
  | YearOfRelease => od_get (default [] (years s)) "Unknown" 0
  | Genre => od_get (default [] (genres s)) (VStr "Unknown") 0
  | Publisher => od_get (default [] (publishers s)) (VStr "Unknown") 0
  end.

(** A record without genre, year and publisher. *)
Definition pong : metadata :=
  record_of [("Name", VStr "Pong"); ("Platform", VStr "Arcade")].

(** Eleven records, each with a publisher of its own. *)
Definition eleven_publishers : list metadata :=
  map (fun p => record_of [("Name", VStr "Game"); ("Publisher", VStr p)])
    ["Nintendo"; "Sega"; "Capcom"; "Konami"; "Namco"; "Atari"; "Activision";
     "Ubisoft"; "Square"; "Enix"; "Taito"].


(** What a search result shows of a field. *)
Definition shown (md : metadata) (field : string) : string :=
  match md !! field with
  | Some v => py_str v
  | None => "Unknown"
  end.

(** The lines of the [i]-th search result. *)
Definition result_lines (i : Z) (md : metadata) : list line :=
  [ResultName i (shown md "Name");
   ResultPlatform (shown md "Platform");
   ResultYear (shown md "YearOfRelease");
   ResultGenre (shown md "Genre")].

(** A non-empty string of decimal digits. *)
Definition digits_only (s : string) : Prop :=
  s <> EmptyString
  /\ Forall (fun c => (48 <= nat_of_ascii c <= 57)%nat) (list_ascii_of_string s).




(** The bar of a line has [floor (20 * count / M)] blocks. *)
Definition bar_scaled (M : Z) (l : line) : Prop :=
  match l with
  | Bar _ _ blocks count => blocks = 20 * count / M
  | _ => True
  end.

(** The bar of a line has between 0 and 20 blocks. *)
Definition bar_bounded (l : line) : Prop :=
  match l with
  | Bar _ _ blocks _ => 0 <= blocks <= 20
  | _ => True
  end.

(** A full bar. *)
Definition is_full_bar (l : line) : bool :=
  match l with
  | Bar _ _ blocks _ => blocks =? 20
  | _ => false
  end.

(** Twelve records over eleven years: two of 1990, one of each year from
    1991 to 2000. *)
Definition twelve_years : list metadata :=
  map (fun y => record_of [("Name", VStr "Game"); ("YearOfRelease", VInt y)])
    [1990; 1990; 1991; 1992; 1993; 1994; 1995; 1996; 1997; 1998; 1999; 2000].


(** * Properties *)

(** ** Insertion-ordered dicts *)

Section OrderedDictFacts.
Context {K : Type} `{EqDecision K}.
Implicit Types (d : list (K * Z)) (k : K).

Lemma od_get_set d k v k' :
  od_get (od_set d k v) k' 0 = if decide (k' = k) then v else od_get d k' 0.
Proof.
  induction d as [|[k0 v0] d IH]; simpl.
  - destruct (decide (k' = k)); reflexivity.
  - destruct (decide (k = k0)) as [->|Hne]; simpl.
    + destruct (decide (k' = k0)); reflexivity.
    + destruct (decide (k' = k0)) as [->|Hne'].
      * destruct (decide (k0 = k)); [congruence | reflexivity].
      * apply IH.
Qed.

Lemma od_get_incr d k k' :
  od_get (od_incr d k) k' 0 = od_get d k' 0 + (if decide (k' = k) then 1 else 0).
Proof.
  unfold od_incr. rewrite od_get_set.
  destruct (decide (k' = k)) as [->|]; lia.
Qed.

Lemma od_keys_set {V : Type} (d : list (K * V)) k v :
  od_keys (od_set d k v)
  = if decide (k ∈ od_keys d) then od_keys d else od_keys d ++ [k].
Proof.
  induction d as [|[k0 v0] d IH]; simpl.
  - destruct (decide (k ∈ [])) as [Hin|]; [inversion Hin | reflexivity].
  - destruct (decide (k = k0)) as [->|Hne]; simpl.
    + rewrite decide_True by (unfold od_keys; simpl; left). reflexivity.
    + change (map fst (od_set d k v)) with (od_keys (od_set d k v)).
      rewrite IH. unfold od_keys; simpl.
      destruct (decide (k ∈ map fst d)) as [Hin|Hnin].
      * rewrite decide_True by (right; exact Hin). reflexivity.
      * rewrite decide_False; [reflexivity|].
        intros Hin. apply elem_of_cons in Hin as [?|?]; congruence.
Qed.

Lemma od_keys_incr d k :
  od_keys (od_incr d k)
  = if decide (k ∈ od_keys d) then od_keys d else od_keys d ++ [k].
Proof. apply od_keys_set. Qed.

Lemma od_incr_NoDup d k : NoDup (od_keys d) -> NoDup (od_keys (od_incr d k)).
Proof.
  intros Hnd. rewrite od_keys_incr. destruct (decide (k ∈ od_keys d)); [done|].
  apply NoDup_app. split_and!; [done| |apply NoDup_singleton].
  intros x Hx Hx'. apply list_elem_of_singleton in Hx'. congruence.
Qed.

Lemma table_sum_set d k v :
  table_sum (od_set d k v) = table_sum d - od_get d k 0 + v.
Proof.
  unfold table_sum, od_values.
  induction d as [|[k0 v0] d IH]; simpl; [lia|].
  destruct (decide (k = k0)); simpl; lia.
Qed.

Lemma table_sum_incr d k : table_sum (od_incr d k) = table_sum d + 1.
Proof. unfold od_incr. rewrite table_sum_set. lia. Qed.

Lemma od_get_nonneg d k :
  Forall (fun kv => 1 <= snd kv) d -> 0 <= od_get d k 0.
Proof.
  induction d as [|[k0 v0] d IH]; simpl; intros Hd; [lia|].
  apply Forall_cons in Hd as [Hv Hd]. simpl in Hv.
  destruct (decide (k = k0)); [lia | by apply IH].
Qed.

Lemma od_set_positive d k v :
  1 <= v ->
  Forall (fun kv => 1 <= snd kv) d -> Forall (fun kv => 1 <= snd kv) (od_set d k v).
Proof.
  intros Hv. induction d as [|[k0 v0] d IH]; simpl; intros Hd.
  - by repeat constructor.
  - apply Forall_cons in Hd as [Hv0 Hd].
    destruct (decide (k = k0)); constructor; auto.
Qed.

Lemma od_incr_positive d k :
  Forall (fun kv => 1 <= snd kv) d -> Forall (fun kv => 1 <= snd kv) (od_incr d k).
Proof.
  intros Hd. apply od_set_positive; [|done].
  pose proof (od_get_nonneg d k Hd). lia.
Qed.

(** [dict] of pairs with distinct keys keeps them as they are. *)
Lemma od_set_fresh {V : Type} (acc : list (K * V)) k v :
  k ∉ od_keys acc -> od_set acc k v = acc ++ [(k, v)].
Proof.
  induction acc as [|[k0 v0] acc IH]; simpl; intros Hk; [done|].
  unfold od_keys in Hk. simpl in Hk. apply not_elem_of_cons in Hk as [? ?].
  rewrite decide_False by done. f_equal. by apply IH.
Qed.

Lemma py_dict_NoDup {V : Type} (l : list (K * V)) :
  NoDup (od_keys l) -> py_dict l = l.
Proof.
  unfold py_dict.
  assert (Hgen : forall (l acc : list (K * V)), NoDup (od_keys (acc ++ l)) ->
    fold_left (fun a kv => od_set a (fst kv) (snd kv)) l acc = acc ++ l).
  { clear l. induction l as [|[k v] l IH]; intros acc Hnd; simpl.
    - by rewrite app_nil_r.
    - rewrite od_set_fresh.
      + rewrite IH; rewrite <- app_assoc; simpl; [done|exact Hnd].
      + unfold od_keys in *. rewrite map_app in Hnd. simpl in Hnd.
        apply NoDup_app in Hnd as (_ & Hdis & _).
        intros Hin. apply (Hdis k Hin). left. }
  intros Hnd. apply (Hgen l []). exact Hnd.
Qed.

(** A table with distinct keys is its keys with their counts. *)
Lemma od_by_keys d :
  NoDup (od_keys d) -> d = map (fun k => (k, od_get d k 0)) (od_keys d).
Proof.
  induction d as [|[k v] d IH]; intros Hnd; simpl; [done|].
  unfold od_keys in Hnd. simpl in Hnd. apply NoDup_cons in Hnd as [Hk Hnd].
  rewrite decide_True by done. f_equal.
  rewrite (IH Hnd) at 1. apply map_ext_in. intros k' Hin.
  apply list_elem_of_In in Hin.
  rewrite decide_False; [done|]. intros ->. exact (Hk Hin).
Qed.
End OrderedDictFacts.

(** ** Counting a sequence of keys *)

Section Tally.
Context {K : Type} `{EqDecision K}.
Implicit Types (ks : list K) (k : K).

Lemma fold_incr_get ks (acc : list (K * Z)) k :
  od_get (fold_left od_incr ks acc) k 0 = od_get acc k 0 + occurrences k ks.
Proof.
  revert acc. induction ks as [|k0 ks IH]; intros acc; simpl.
  - unfold occurrences. simpl. lia.
  - rewrite IH, od_get_incr. unfold occurrences. rewrite filter_cons.
    destruct (decide (k = k0)) as [->|Hne].
    + rewrite decide_True by done. simpl length. lia.
    + rewrite decide_False by congruence. lia.
Qed.

Lemma fold_incr_keys ks (acc : list (K * Z)) :
  od_keys (fold_left od_incr ks acc)
  = od_keys acc ++ filter (fun k => k ∉ od_keys acc) (first_seen ks).
Proof.
  revert acc. induction ks as [|k0 ks IH]; intros acc; simpl.
  - by rewrite app_nil_r.
  - rewrite IH, od_keys_incr, filter_cons.
    destruct (decide (k0 ∈ od_keys acc)) as [Hin|Hnin].
    + rewrite decide_False by (intros Hn; exact (Hn Hin)).
      f_equal. rewrite list_filter_filter. apply list_filter_iff.
      intros k. split; [|tauto]. intros Hk. split; [done|]. by intros ->.
    + rewrite decide_True by done. rewrite <- app_assoc. simpl. do 2 f_equal.
      rewrite list_filter_filter. apply list_filter_iff.
      intros k. rewrite elem_of_app, list_elem_of_singleton. tauto.
Qed.

Lemma fold_incr_NoDup ks (acc : list (K * Z)) :
  NoDup (od_keys acc) -> NoDup (od_keys (fold_left od_incr ks acc)).
Proof.
  revert acc. induction ks as [|k0 ks IH]; intros acc Hnd; simpl; [done|].
  by apply IH, od_incr_NoDup.
Qed.

Lemma fold_incr_sum ks (acc : list (K * Z)) :
  table_sum (fold_left od_incr ks acc) = table_sum acc + Z.of_nat (length ks).
Proof.
  revert acc. induction ks as [|k0 ks IH]; intros acc; simpl length; simpl fold_left.
  - lia.
  - rewrite IH, table_sum_incr. lia.
Qed.

Lemma fold_incr_positive ks (acc : list (K * Z)) :
  Forall (fun kv => 1 <= snd kv) acc ->
  Forall (fun kv => 1 <= snd kv) (fold_left od_incr ks acc).
Proof.
  revert acc. induction ks as [|k0 ks IH]; intros acc Hacc; simpl; [done|].
  by apply IH, od_incr_positive.
Qed.

Lemma first_seen_elem_of ks k : k ∈ first_seen ks <-> k ∈ ks.
Proof.
  induction ks as [|k0 ks IH]; simpl; [done|].
  rewrite !elem_of_cons, list_elem_of_filter, IH.
  destruct (decide (k = k0)); tauto.
Qed.

Lemma first_seen_NoDup ks : NoDup (first_seen ks).
Proof.
  induction ks as [|k0 ks IH]; simpl; constructor.
  - rewrite list_elem_of_filter. tauto.
  - by apply NoDup_filter.
Qed.

(** The table of a sequence of keys: the keys in the order in which
    they are first met, each with the number of its occurrences. *)
Lemma tally_spec ks :
  fold_left od_incr ks [] = map (fun k => (k, occurrences k ks)) (first_seen ks).
Proof.
  pose proof (fold_incr_NoDup ks [] (NoDup_nil_2)) as Hnd.
  rewrite (od_by_keys _ Hnd) at 1.
  rewrite fold_incr_keys. simpl.
  rewrite (list_filter_iff _ (fun _ => True)).
  2:{ intros k. split; [done|]. intros _ Hin. inversion Hin. }
  assert (Hid : forall l : list K, filter (fun _ => True) l = l).
  { induction l as [|x l IHl]; [done|]. rewrite filter_cons_True by done.
    by rewrite IHl. }
  rewrite Hid. apply map_ext. intros k. by rewrite fold_incr_get.
Qed.
End Tally.

(** ** The stable sort *)

Section SortedFacts.
Context {A : Type} (lt : A -> A -> bool).

Lemma sorted_insert_Permutation x l : sorted_insert lt x l ≡ₚ x :: l.
Proof.
  induction l as [|y l IH]; simpl; [done|].
  destruct (lt y x); [|done]. rewrite IH. apply perm_swap.
Qed.

Lemma py_sorted_Permutation l : py_sorted lt l ≡ₚ l.
Proof.
  induction l as [|x l IH]; simpl; [done|].
  rewrite sorted_insert_Permutation. by constructor.
Qed.


(** The result is ordered by any transitive relation that agrees with
    the comparison. *)
Section Ordered.
Context (R : relation A) `{!Transitive R}.
Hypothesis lt_R : forall x y, lt y x = true -> R y x.
Hypothesis nlt_R : forall x y, lt y x = false -> R x y.

Lemma sorted_insert_StronglySorted x l :
  StronglySorted R l -> StronglySorted R (sorted_insert lt x l).
Proof.
  induction 1 as [|y l Hl IH Hy]; simpl.
  - repeat constructor.
  - destruct (lt y x) eqn:Hlt.
    + constructor; [done|].
      rewrite sorted_insert_Permutation. constructor; [by apply lt_R | done].
    + constructor; [by constructor|].
      constructor; [by apply nlt_R|].
      eapply Forall_impl; [exact Hy|]. intros z Hz.
      transitivity y; [by apply nlt_R | done].
Qed.

Lemma py_sorted_StronglySorted l : StronglySorted R (py_sorted lt l).
Proof.
  induction l as [|x l IH]; simpl; [constructor|].
  by apply sorted_insert_StronglySorted.
Qed.
End Ordered.

(** Sorting a list that is in order already changes nothing. *)
Lemma py_sorted_id (R : relation A) l :
  (forall x y, R x y -> lt y x = false) ->
  StronglySorted R l -> py_sorted lt l = l.
Proof.
  intros HR. induction 1 as [|x l Hl IH Hx]; simpl; [done|].
  rewrite IH. destruct l as [|y l]; simpl; [done|].
  apply Forall_cons in Hx as [Hxy _]. by rewrite (HR _ _ Hxy).
Qed.

(** Stability: the elements of one class, among which the comparison
    does not decide, keep their order. *)
Section Stable.
Context {C : Type} `{EqDecision C} (cls : A -> C).
Hypothesis lt_cls : forall x y, lt y x = true -> cls y <> cls x.

Lemma sorted_insert_stable c x l :
  filter (fun a => cls a = c) (sorted_insert lt x l)
  = filter (fun a => cls a = c) (x :: l).
Proof.
  induction l as [|y l IH]; simpl; [done|].
  destruct (lt y x) eqn:Hlt; [|done].
  apply lt_cls in Hlt.
  rewrite filter_cons, IH, !filter_cons.
  destruct (decide (cls y = c)), (decide (cls x = c)); congruence.
Qed.

Lemma py_sorted_stable c l :
  filter (fun a => cls a = c) (py_sorted lt l) = filter (fun a => cls a = c) l.
Proof.
  induction l as [|x l IH]; simpl; [done|].
  rewrite sorted_insert_stable, !filter_cons, IH. done.
Qed.
End Stable.
End SortedFacts.

(** ** The order of strings and of year items *)

Definition str_lt (a b : string) : Prop := String.compare a b = Lt.

Definition item_le (a b : string * Z) : Prop :=
  str_lt (fst a) (fst b) \/ (fst a = fst b /\ snd a <= snd b).

Lemma ascii_compare_lt (a b : ascii) :
  Ascii.compare a b = Lt <-> (N_of_ascii a < N_of_ascii b)%N.
Proof. unfold Ascii.compare. apply N.compare_lt_iff. Qed.

Lemma ascii_compare_eq (a b : ascii) : Ascii.compare a b = Eq <-> a = b.
Proof.
  split; [apply Ascii.compare_eq_iff|]. intros ->.
  unfold Ascii.compare. apply N.compare_refl.
Qed.

Lemma str_compare_refl (a : string) : String.compare a a = Eq.
Proof.
  induction a as [|c a IH]; simpl; [done|].
  by rewrite (proj2 (ascii_compare_eq c c) eq_refl).
Qed.

Global Instance str_lt_trans : Transitive str_lt.
Proof.
  unfold str_lt. intros a. induction a as [|x a IH]; intros [|y b] [|z c]; simpl;
    try done.
  destruct (Ascii.compare x y) eqn:Hxy; try done;
    destruct (Ascii.compare y z) eqn:Hyz; try done.
  - apply ascii_compare_eq in Hxy as ->. rewrite Hyz. apply IH.
  - apply ascii_compare_eq in Hxy as ->. by rewrite Hyz.
  - apply ascii_compare_eq in Hyz as <-. by rewrite Hxy.
  - unfold Ascii.compare in *. rewrite N.compare_lt_iff in Hxy, Hyz.
    rewrite (proj2 (N.compare_lt_iff _ _)) by lia. done.
Qed.

Lemma str_lt_irrefl (a : string) : ~ str_lt a a.
Proof. unfold str_lt. by rewrite str_compare_refl. Qed.

Lemma item_ltb_false (a b : string * Z) : item_ltb b a = false <-> item_le a b.
Proof.
  unfold item_ltb, item_le, str_lt. rewrite String.compare_antisym.
  destruct (String.compare a.1 b.1) eqn:Hc; simpl.
  - apply String.compare_eq_iff in Hc. rewrite Z.ltb_ge.
    split; [by right | by intros [?|[_ ?]]].
  - split; [by left | done].
  - split; [done|]. intros [?|[Heq _]]; [done|].
    rewrite Heq, str_compare_refl in Hc. done.
Qed.

Lemma item_ltb_true (a b : string * Z) : item_ltb a b = true -> item_le a b.
Proof.
  unfold item_ltb, item_le, str_lt.
  destruct (String.compare a.1 b.1) eqn:Hc; [|by left|done].
  apply String.compare_eq_iff in Hc. rewrite Z.ltb_lt. intros. right.
  split; [done | lia].
Qed.

Global Instance item_le_trans : Transitive item_le.
Proof.
  intros a b c [Hab|[Hab Hab']] [Hbc|[Hbc Hbc']]; unfold item_le.
  - left. by transitivity b.1.
  - left. by rewrite <- Hbc.
  - left. by rewrite Hab.
  - right. split; [congruence | lia].
Qed.

(** Among items with distinct keys the order is that of the keys. *)
Lemma item_le_keys (l : list (string * Z)) :
  NoDup (od_keys l) -> StronglySorted item_le l ->
  StronglySorted (fun a b => str_lt (fst a) (fst b)) l.
Proof.
  induction l as [|a l IH]; intros Hnd Hs; [constructor|].
  unfold od_keys in Hnd. simpl in Hnd. apply NoDup_cons in Hnd as [Ha Hnd].
  apply StronglySorted_inv in Hs as [Hs Hal].
  constructor; [by apply IH|].
  apply Forall_forall. intros b Hb.
  rewrite Forall_forall in Hal. destruct (Hal b Hb) as [?|[Heq _]]; [done|].
  exfalso. apply Ha. rewrite Heq.
  apply list_elem_of_In, in_map, list_elem_of_In, Hb.
Qed.

(** ** The tables of the aggregator *)

(** The frequency table of a sequence of field values. *)
Definition frequency_table {K : Type} `{EqDecision K} (ks : list K) : list (K * Z) :=
  map (fun k => (k, occurrences k ks)) (first_seen ks).

Lemma count_records_fold mds c :
  fold_left count_record mds c
  = {| c_platforms := fold_left od_incr (map platform_of mds) (c_platforms c);
       c_years := fold_left od_incr (map year_of mds) (c_years c);
       c_genres := fold_left od_incr (map genre_of mds) (c_genres c);
       c_publishers := fold_left od_incr (map publisher_of mds) (c_publishers c) |}.
Proof.
  revert c. induction mds as [|md mds IH]; intros c; simpl.
  - by destruct c.
  - by rewrite IH.
Qed.

Lemma count_records_spec mds :
  count_records mds
  = {| c_platforms := frequency_table (map platform_of mds);
       c_years := frequency_table (map year_of mds);
       c_genres := frequency_table (map genre_of mds);
       c_publishers := frequency_table (map publisher_of mds) |}.
Proof.
  unfold count_records. rewrite count_records_fold. simpl.
  by rewrite !tally_spec.
Qed.

Section FrequencyTable.
Context {K : Type} `{EqDecision K}.
Implicit Types (ks : list K).

Lemma frequency_table_keys ks : od_keys (frequency_table ks) = first_seen ks.
Proof.
  unfold frequency_table, od_keys. rewrite map_map. simpl. apply map_id.
Qed.

Lemma frequency_table_NoDup ks : NoDup (od_keys (frequency_table ks)).
Proof. rewrite frequency_table_keys. apply first_seen_NoDup. Qed.

Lemma frequency_table_sum ks : table_sum (frequency_table ks) = Z.of_nat (length ks).
Proof.
  unfold frequency_table. rewrite <- tally_spec, fold_incr_sum. done.
Qed.

Lemma frequency_table_positive ks :
  Forall (fun kv => 1 <= snd kv) (frequency_table ks).
Proof.
  unfold frequency_table. rewrite <- tally_spec.
  apply fold_incr_positive. constructor.
Qed.

Lemma frequency_table_get ks k : od_get (frequency_table ks) k 0 = occurrences k ks.
Proof.
  unfold frequency_table. rewrite <- tally_spec, fold_incr_get. simpl. lia.
Qed.

Lemma frequency_table_nil ks : frequency_table ks = [] <-> ks = [].
Proof.
  split; [|by intros ->]. destruct ks; [done|]. discriminate.
Qed.
End FrequencyTable.

(** Sorting and truncating keep the keys of a table distinct. *)
Lemma py_sorted_keys_NoDup {K : Type} (lt : K * Z -> K * Z -> bool) (d : list (K * Z)) :
  NoDup (od_keys d) -> NoDup (od_keys (py_sorted lt d)).
Proof.
  unfold od_keys. intros Hnd.
  by rewrite (fmap_Permutation fst _ _ (py_sorted_Permutation lt d)).
Qed.

Lemma take_keys_NoDup {K : Type} (n : nat) (d : list (K * Z)) :
  NoDup (od_keys d) -> NoDup (od_keys (take n d)).
Proof.
  unfold od_keys. intros Hnd. rewrite <- firstn_map.
  eapply sublist_NoDup; [exact Hnd | apply sublist_take].
Qed.

(** The tables [get_collection_stats] stores for a collection that holds
    documents. *)
Definition platform_table (mds : list metadata) : list (value * Z) :=
  py_sorted by_count_desc (frequency_table (map platform_of mds)).
Definition year_table (mds : list metadata) : list (string * Z) :=
  py_sorted item_ltb (frequency_table (map year_of mds)).
Definition genre_table (mds : list metadata) : list (value * Z) :=
  py_sorted by_count_desc (frequency_table (map genre_of mds)).
Definition publisher_table (mds : list metadata) : list (value * Z) :=
  take 10 (py_sorted by_count_desc (frequency_table (map publisher_of mds))).

Lemma get_collection_stats_docs (mds : list metadata) :
  mds <> [] ->
  get_collection_stats (Some mds)
  = {| total_games := Some (Z.of_nat (length mds));
       platforms := Some (platform_table mds);
       years := Some (year_table mds);
       genres := Some (genre_table mds);
       publishers := Some (publisher_table mds) |}.
Proof.
  intros Hne. unfold get_collection_stats.
  assert (Hlen : (0 <? Z.of_nat (length mds)) = true).
  { apply Z.ltb_lt. destruct mds; [done|]. simpl length. lia. }
  rewrite Hlen, count_records_spec. cbn [c_platforms c_years c_genres c_publishers].
  rewrite !py_dict_NoDup; [done|..];
    repeat first [apply take_keys_NoDup | apply py_sorted_keys_NoDup
                 | apply frequency_table_NoDup].
Qed.

Lemma get_collection_stats_no_docs :
  get_collection_stats (Some [])
  = {| total_games := Some 0; platforms := None; years := None;
       genres := None; publishers := None |}.
Proof. reflexivity. Qed.

(** ** Binary64 arithmetic *)

Module Float64Facts.
Import Float64.

Lemma shl_nonpos n k : k <= 0 -> shl n k = n.
Proof. intros Hk. unfold shl. rewrite Z.max_l by lia. simpl. lia. Qed.

Lemma shl_nonneg n k : 0 <= k -> shl n k = n * 2 ^ k.
Proof. intros Hk. unfold shl. by rewrite Z.max_r by lia. Qed.

Lemma shl_pos n k : 0 < n -> 0 < shl n k.
Proof.
  intros Hn. unfold shl.
  assert (0 < 2 ^ Z.max 0 k) by (apply Z.pow_pos_nonneg; lia). nia.
Qed.

(** [2^f <= n / d] *)
Definition le_ratio (f n d : Z) : Prop := shl d f <= shl n (- f).

Lemma le_ratio_mono f f' n d :
  0 < n -> 0 < d -> f' <= f -> le_ratio f n d -> le_ratio f' n d.
Proof.
  unfold le_ratio, shl. intros Hn Hd Hf H.
  assert (0 < 2 ^ Z.max 0 f') by (apply Z.pow_pos_nonneg; lia).
  assert (2 ^ Z.max 0 f' <= 2 ^ Z.max 0 f) by (apply Z.pow_le_mono_r; lia).
  assert (0 < 2 ^ Z.max 0 (- f)) by (apply Z.pow_pos_nonneg; lia).
  assert (2 ^ Z.max 0 (- f) <= 2 ^ Z.max 0 (- f')) by (apply Z.pow_le_mono_r; lia).
  nia.
Qed.

Lemma le_ratio_scale f n1 d1 n2 d2 :
  0 < n1 -> 0 < d1 -> 0 < n2 -> 0 < d2 -> n1 * d2 = n2 * d1 ->
  le_ratio f n1 d1 -> le_ratio f n2 d2.
Proof.
  unfold le_ratio, shl. intros Hn1 Hd1 Hn2 Hd2 Heq H.
  assert (0 < 2 ^ Z.max 0 f) by (apply Z.pow_pos_nonneg; lia).
  assert (0 < 2 ^ Z.max 0 (- f)) by (apply Z.pow_pos_nonneg; lia).
  set (a := 2 ^ Z.max 0 f) in *. set (b := 2 ^ Z.max 0 (- f)) in *.
  apply (Z.mul_le_mono_pos_l _ _ d1); [lia|].
  replace (d1 * (n2 * b)) with (d2 * (n1 * b)) by nia.
  replace (d1 * (d2 * a)) with (d2 * (d1 * a)) by lia.
  apply Z.mul_le_mono_nonneg_l; lia.
Qed.

(** [ilog2_ratio n d] is the integer [f] with [2^f <= n/d < 2^(f+1)]. *)
Lemma ilog2_ratio_spec n d :
  0 < n -> 0 < d ->
  le_ratio (ilog2_ratio n d) n d /\ ~ le_ratio (ilog2_ratio n d + 1) n d.
Proof.
  intros Hn Hd. unfold ilog2_ratio.
  destruct (Z.log2_spec n Hn) as [Hn1 Hn2].
  destruct (Z.log2_spec d Hd) as [Hd1 Hd2].
  pose proof (Z.log2_nonneg n) as Hln. pose proof (Z.log2_nonneg d) as Hld.
  set (ln := Z.log2 n) in *. set (ld := Z.log2 d) in *.
  rewrite Z.pow_succ_r in Hn2, Hd2 by lia.
  assert (Hpn : 0 < 2 ^ ln) by (apply Z.pow_pos_nonneg; lia).
  assert (Hpd : 0 < 2 ^ ld) by (apply Z.pow_pos_nonneg; lia).
  destruct (Z.leb_spec (shl d (ln - ld)) (shl n (- (ln - ld)))) as [Hc|Hc].
  - split; [exact Hc|]. unfold le_ratio. apply Z.lt_nge.
    destruct (Z.le_gt_cases 0 (ln - ld)) as [Hl|Hl].
    + rewrite (shl_nonpos n) by lia. rewrite shl_nonneg by lia.
      replace ln with (ld + (ln - ld)) in Hn2 by lia.
      rewrite Z.pow_add_r in Hn2 by lia.
      rewrite Z.pow_add_r, Z.pow_1_r by lia.
      assert (0 < 2 ^ (ln - ld)) by (apply Z.pow_pos_nonneg; lia). nia.
    + rewrite (shl_nonpos d) by lia. rewrite shl_nonneg by lia.
      replace ld with (ln + (- (ln - ld + 1) + 1)) in Hd1 by lia.
      rewrite Z.pow_add_r, Z.pow_add_r, Z.pow_1_r in Hd1 by lia.
      assert (0 < 2 ^ (- (ln - ld + 1))) by (apply Z.pow_pos_nonneg; lia). nia.
  - split; [|unfold le_ratio; replace (ln - ld - 1 + 1) with (ln - ld) by lia; lia].
    unfold le_ratio.
    destruct (Z.le_gt_cases 1 (ln - ld)) as [Hl|Hl].
    + rewrite (shl_nonpos n) by lia. rewrite shl_nonneg by lia.
      replace ln with (ld + 1 + (ln - ld - 1)) in Hn1 by lia.
      rewrite Z.pow_add_r, Z.pow_add_r, Z.pow_1_r in Hn1 by lia.
      assert (0 < 2 ^ (ln - ld - 1)) by (apply Z.pow_pos_nonneg; lia). nia.
    + rewrite (shl_nonpos d) by lia. rewrite shl_nonneg by lia.
      replace (- (ln - ld - 1)) with (ld - ln + 1) by lia.
      replace ld with (ln + (ld - ln)) in Hd2 by lia.
      rewrite Z.pow_add_r in Hd2 by lia.
      rewrite Z.pow_add_r, Z.pow_1_r by lia.
      assert (0 < 2 ^ (ld - ln)) by (apply Z.pow_pos_nonneg; lia). nia.
Qed.

Lemma ilog2_ratio_unique f n d :
  0 < n -> 0 < d -> le_ratio f n d -> ~ le_ratio (f + 1) n d ->
  ilog2_ratio n d = f.
Proof.
  intros Hn Hd Hf Hf'. destruct (ilog2_ratio_spec n d Hn Hd) as [Hi Hi'].
  destruct (Z.lt_trichotomy (ilog2_ratio n d) f) as [Hlt|[Heq|Hgt]]; [|done|].
  - exfalso. apply Hi'. apply (le_ratio_mono f); [done|done|lia|done].
  - exfalso. apply Hf'. apply (le_ratio_mono (ilog2_ratio n d)); [done|done|lia|done].
Qed.

Lemma ilog2_ratio_scale n1 d1 n2 d2 :
  0 < n1 -> 0 < d1 -> 0 < n2 -> 0 < d2 -> n1 * d2 = n2 * d1 ->
  ilog2_ratio n1 d1 = ilog2_ratio n2 d2.
Proof.
  intros Hn1 Hd1 Hn2 Hd2 Heq.
  destruct (ilog2_ratio_spec n2 d2 Hn2 Hd2) as [Hi Hi'].
  apply ilog2_ratio_unique; [done|done| |].
  - by apply (le_ratio_scale _ n2 d2).
  - intros H. apply Hi'. by apply (le_ratio_scale _ n1 d1).
Qed.

(** A ratio below [2^j] has its logarithm below [j]. *)
Lemma ilog2_ratio_lt n d j :
  0 < n -> 0 < d -> 0 <= j -> n < 2 ^ j * d -> ilog2_ratio n d < j.
Proof.
  intros Hn Hd Hj Hlt. destruct (ilog2_ratio_spec n d Hn Hd) as [Hi _].
  apply Z.lt_nge. intros Hge.
  apply (le_ratio_mono _ j) in Hi; [|done|done|done].
  unfold le_ratio in Hi. rewrite shl_nonneg, shl_nonpos in Hi by lia. lia.
Qed.

Lemma exponent_le n d j :
  0 < n -> 0 < d -> 0 <= j -> n < 2 ^ j * d -> exponent n d <= j - 53.
Proof.
  intros Hn Hd Hj Hlt. pose proof (ilog2_ratio_lt n d j Hn Hd Hj Hlt).
  unfold exponent, emin. lia.
Qed.

(** The quotient and the rounding direction depend on the ratio only. *)
Lemma div_round_scale N1 D1 N2 D2 :
  0 <= N1 -> 0 < D1 -> 0 <= N2 -> 0 < D2 -> N1 * D2 = N2 * D1 ->
  N1 / D1 = N2 / D2
  /\ D1 * (N2 mod D2) = D2 * (N1 mod D1).
Proof.
  intros HN1 HD1 HN2 HD2 Heq.
  pose proof (Z.div_mod N1 D1 ltac:(lia)) as H1.
  pose proof (Z.mod_pos_bound N1 D1 HD1) as Hr1.
  set (q := N1 / D1) in *. set (r1 := N1 mod D1) in *.
  assert (Hr2 : D1 * (N2 - D2 * q) = D2 * r1) by nia.
  assert (Hq : N2 / D2 = q).
  { symmetry. apply (Z.div_unique_pos N2 D2 q (N2 - D2 * q)); [|lia]. nia. }
  split; [done|].
  rewrite <- Hr2. f_equal. rewrite Z.mod_eq by lia. rewrite Hq. lia.
Qed.

Lemma round_ratio_scale n1 d1 n2 d2 :
  0 < n1 -> 0 < d1 -> 0 < n2 -> 0 < d2 -> n1 * d2 = n2 * d1 ->
  round_ratio n1 d1 = round_ratio n2 d2.
Proof.
  intros Hn1 Hd1 Hn2 Hd2 Heq. unfold round_ratio, exponent.
  rewrite (ilog2_ratio_scale n1 d1 n2 d2) by done.
  set (e := Z.max emin (ilog2_ratio n2 d2 - 52)).
  pose proof (shl_pos n1 (- e) Hn1). pose proof (shl_pos n2 (- e) Hn2).
  pose proof (shl_pos d1 e Hd1). pose proof (shl_pos d2 e Hd2).
  destruct (div_round_scale (shl n1 (- e)) (shl d1 e) (shl n2 (- e)) (shl d2 e))
    as [Hq Hr]; [lia|lia|lia|lia|unfold shl; nia|].
  pose proof (Z.mod_pos_bound (shl n1 (- e)) (shl d1 e) ltac:(lia)).
  pose proof (Z.mod_pos_bound (shl n2 (- e)) (shl d2 e) ltac:(lia)).
  set (N1 := shl n1 (- e)) in *. set (D1 := shl d1 e) in *.
  set (N2 := shl n2 (- e)) in *. set (D2 := shl d2 e) in *.
  rewrite Hq.
  replace (D1 <? 2 * (N1 mod D1)) with (D2 <? 2 * (N2 mod D2)).
  2:{ destruct (Z.ltb_spec D2 (2 * (N2 mod D2))), (Z.ltb_spec D1 (2 * (N1 mod D1)));
      try done; nia. }
  replace (D1 =? 2 * (N1 mod D1)) with (D2 =? 2 * (N2 mod D2)).
  2:{ destruct (Z.eqb_spec D2 (2 * (N2 mod D2))), (Z.eqb_spec D1 (2 * (N1 mod D1)));
      try done; nia. }
  done.
Qed.

(** The mantissa is within one unit of the scaled ratio. *)
Lemma round_ratio_mantissa n d :
  0 < n -> 0 < d ->
  let e := exponent n d in
  let q := fst (round_ratio n d) in
  snd (round_ratio n d) = e
  /\ shl n (- e) - shl d e < q * shl d e < shl n (- e) + shl d e.
Proof.
  intros Hn Hd e q. split; [done|].
  subst q. unfold round_ratio. fold e. cbn [fst].
  pose proof (shl_pos n (- e) Hn). pose proof (shl_pos d e Hd).
  set (N := shl n (- e)) in *. set (D := shl d e) in *.
  pose proof (Z.div_mod N D ltac:(lia)) as HN.
  pose proof (Z.mod_pos_bound N D ltac:(lia)) as Hr.
  destruct ((D <? 2 * (N mod D)) || ((D =? 2 * (N mod D)) && Z.odd (N / D)))
    eqn:Hup.
  - assert (0 < N mod D).
    { apply orb_true_iff in Hup as [Hup|Hup].
      - apply Z.ltb_lt in Hup. lia.
      - apply andb_true_iff in Hup as [Hup _]. apply Z.eqb_eq in Hup. lia. }
    nia.
  - nia.
Qed.

Lemma not_overflows q e j :
  0 <= j -> j + e < 1024 -> q < 2 ^ j -> overflows (q, e) = false.
Proof.
  intros Hj He Hq. unfold overflows. cbn [fst snd].
  destruct (Z.ltb_spec 0 q) as [Hpos|]; [|done]. simpl.
  apply Z.leb_gt. apply Z.log2_lt_pow2 in Hq; lia.
Qed.

Lemma int_truediv_pos c m :
  0 < c -> 0 < m ->
  int_truediv c m
  = if overflows (round_ratio c m) then inl OverflowError
    else inr (Finite false (fst (round_ratio c m)) (snd (round_ratio c m))).
Proof.
  intros Hc Hm. unfold int_truediv, of_ratio.
  rewrite (proj2 (Z.eqb_neq m 0)) by lia.
  rewrite (proj2 (Z.ltb_ge c 0)), (proj2 (Z.ltb_ge m 0)) by lia.
  rewrite !Z.abs_eq by lia. rewrite (proj2 (Z.eqb_neq c 0)) by lia.
  simpl. by destruct (overflows (round_ratio c m)).
Qed.

Lemma int_truediv_scale c1 m1 c2 m2 :
  0 < c1 -> 0 < m1 -> 0 < c2 -> 0 < m2 -> c1 * m2 = c2 * m1 ->
  int_truediv c1 m1 = int_truediv c2 m2.
Proof.
  intros. rewrite !int_truediv_pos by done.
  by rewrite (round_ratio_scale c1 m1 c2 m2).
Qed.

Lemma of_int_20 : of_int 20 = inr (Finite false (5 * 2 ^ 50) (-48)).
Proof. vm_compute. reflexivity. Qed.
End Float64Facts.

(** ** The length of a bar *)

Section BarLength.
Import Float64 Float64Facts.

(** What the two roundings of [bar_length] leave: with [P1] and [P2] the
    scales of the quotient and of the product, the mantissas [q1] and
    [q2] are within one unit of the exact values. *)
Lemma bar_length_rounding c m :
  0 < c <= m ->
  exists q1 q2 P1 P2,
    2 ^ 52 <= P1 /\ 2 ^ 48 <= P2
    /\ c * P1 - m < q1 * m < c * P1 + m
    /\ 20 * q1 * P2 - P1 < q2 * P1 < 20 * q1 * P2 + P1
    /\ bar_length c m = inr (q2 / P2).
Proof.
  intros [Hc Hcm]. assert (Hm : 0 < m) by lia.
  destruct (round_ratio_mantissa c m Hc Hm) as [He1 Hq1].
  assert (Hexp1 : exponent c m <= -52).
  { change (-52) with (1 - 53). apply exponent_le; lia. }
  set (e1 := exponent c m) in *. set (q1 := fst (round_ratio c m)) in *.
  rewrite shl_nonneg, (shl_nonpos m) in Hq1 by lia.
  assert (HP1 : 2 ^ 52 <= 2 ^ (- e1)) by (apply Z.pow_le_mono_r; lia).
  set (P1 := 2 ^ (- e1)) in *.
  assert (Hq1P : 0 <= q1 <= P1) by nia.
  assert (Hdiv : int_truediv c m = inr (Finite false q1 e1)).
  { rewrite int_truediv_pos by done. fold q1. rewrite He1.
    rewrite (surjective_pairing (round_ratio c m)). fold q1. rewrite He1.
    rewrite (not_overflows q1 e1 (1 - e1)); [done|lia|lia|].
    replace (1 - e1) with (- e1 + 1) by lia.
    rewrite Z.pow_add_r, Z.pow_1_r by lia. fold P1. lia. }
  unfold bar_length. rewrite Hdiv, of_int_20.
  cbn [mul xorb]. rewrite shl_nonpos, shl_nonneg by lia.
  replace (- (e1 + -48)) with (48 + - e1) by lia.
  rewrite Z.pow_add_r by lia. fold P1. rewrite Z.mul_1_l.
  unfold of_ratio.
  destruct (Z.eqb_spec (q1 * (5 * 2 ^ 50)) 0) as [Hz|Hnz].
  - assert (Hq10 : q1 = 0).
    { change (2 ^ 50) with 1125899906842624 in Hz. lia. }
    exists q1, 0, P1, (2 ^ 48).
    split; [exact HP1|]. split; [lia|]. split; [exact Hq1|].
    split; [lia|]. reflexivity.
  - assert (Hn2 : 0 < q1 * (5 * 2 ^ 50)) by lia.
    assert (Hd2 : 0 < 2 ^ 48 * P1) by lia.
    destruct (round_ratio_mantissa _ _ Hn2 Hd2) as [He2 Hq2].
    assert (Hexp2 : exponent (q1 * (5 * 2 ^ 50)) (2 ^ 48 * P1) <= -48).
    { change (-48) with (5 - 53). apply exponent_le; [done|done|lia|].
      change (2 ^ 5) with 32. change (2 ^ 50) with (4 * 2 ^ 48). nia. }
    set (e2 := exponent (q1 * (5 * 2 ^ 50)) (2 ^ 48 * P1)) in *.
    set (q2 := fst (round_ratio (q1 * (5 * 2 ^ 50)) (2 ^ 48 * P1))) in *.
    rewrite shl_nonneg, (shl_nonpos (2 ^ 48 * P1)) in Hq2 by lia.
    assert (HP2 : 2 ^ 48 <= 2 ^ (- e2)) by (apply Z.pow_le_mono_r; lia).
    set (P2 := 2 ^ (- e2)) in *.
    assert (Hq2' : 20 * q1 * P2 - P1 < q2 * P1 < 20 * q1 * P2 + P1).
    { change (2 ^ 50) with (4 * 2 ^ 48) in Hq2.
      assert (HK : 0 < 2 ^ 48) by done.
      destruct Hq2 as [Hlo Hhi]. clearbody q2 P2. revert Hlo Hhi HK.
      generalize (2 ^ 48). intros K Hlo Hhi HK.
      split; apply (Z.mul_lt_mono_pos_l K); try done.
      - replace (K * (20 * q1 * P2 - P1))
          with (q1 * (5 * (4 * K)) * P2 - K * P1) by ring.
        replace (K * (q2 * P1)) with (q2 * (K * P1)) by ring. exact Hlo.
      - replace (K * (20 * q1 * P2 + P1))
          with (q1 * (5 * (4 * K)) * P2 + K * P1) by ring.
        replace (K * (q2 * P1)) with (q2 * (K * P1)) by ring. exact Hhi. }
    rewrite (surjective_pairing (round_ratio (q1 * (5 * 2 ^ 50)) (2 ^ 48 * P1))).
    fold q2. rewrite He2.
    rewrite (not_overflows q2 e2 (5 - e2)); [|lia|lia|].
    2:{ replace (5 - e2) with (- e2 + 5) by lia.
        rewrite Z.pow_add_r by lia. fold P2. change (2 ^ 5) with 32. nia. }
    exists q1, q2, P1, P2.
    split; [exact HP1|]. split; [exact HP2|]. split; [exact Hq1|].
    split; [exact Hq2'|].
    cbn [to_int fst snd]. rewrite shl_nonpos, shl_nonneg by lia.
    fold P2. by rewrite Z.mul_1_l.
Qed.

(** No bar is longer than 20 blocks. *)
Lemma bar_length_bounds c m :
  0 < c <= m -> exists b, bar_length c m = inr b /\ 0 <= b <= 20.
Proof.
  intros Hcm.
  destruct (bar_length_rounding c m Hcm)
    as (q1 & q2 & P1 & P2 & HP1 & HP2 & Hq1 & Hq2 & ->).
  change (2 ^ 52) with 4503599627370496 in HP1.
  change (2 ^ 48) with 281474976710656 in HP2.
  exists (q2 / P2). split; [done|].
  assert (Hq1P : 0 <= q1 <= P1) by nia.
  assert (Hq2P : 0 <= q2 <= 20 * P2) by nia.
  split.
  - apply Z.div_pos; lia.
  - apply Z.div_le_upper_bound; lia.
Qed.

Lemma bar_length_scale c1 m1 c2 m2 :
  0 < c1 -> 0 < m1 -> 0 < c2 -> 0 < m2 -> c1 * m2 = c2 * m1 ->
  bar_length c1 m1 = bar_length c2 m2.
Proof.
  intros. unfold bar_length. by rewrite (int_truediv_scale c1 m1 c2 m2).
Qed.

(** An entry with the largest count has a full bar. *)
Lemma bar_length_top m : 0 < m -> bar_length m m = inr 20.
Proof.
  intros Hm. rewrite (bar_length_scale m m 1 1) by lia.
  vm_compute. reflexivity.
Qed.

Lemma bar_length_zero m : 0 < m -> bar_length 0 m = inr 0.
Proof.
  intros Hm. unfold bar_length, int_truediv.
  rewrite (proj2 (Z.eqb_neq m 0)), (proj2 (Z.ltb_ge m 0)) by lia. reflexivity.
Qed.

(** The twentieths: here the quotient is rounded, and the product
    rounds back to the integer. *)
Lemma bar_length_twentieths k : 1 <= k <= 20 -> bar_length k 20 = inr k.
Proof.
  intros Hk.
  assert (Hcases : k = 1 \/ k = 2 \/ k = 3 \/ k = 4 \/ k = 5 \/ k = 6 \/ k = 7
    \/ k = 8 \/ k = 9 \/ k = 10 \/ k = 11 \/ k = 12 \/ k = 13 \/ k = 14
    \/ k = 15 \/ k = 16 \/ k = 17 \/ k = 18 \/ k = 19 \/ k = 20) by lia.
  repeat (destruct Hcases as [->|Hcases]; [vm_compute; reflexivity|]).
  subst k. vm_compute. reflexivity.
Qed.

(** Up to [2^46] the two roundings do not show: the bar has
    [floor (20 * c / m)] blocks. *)
Lemma bar_length_exact c m :
  0 <= c <= m -> 0 < m <= 2 ^ 46 -> bar_length c m = inr (20 * c / m).
Proof.
  intros [Hc Hcm] [Hm Hm46].
  destruct (Z.eq_dec c 0) as [->|Hc0].
  { rewrite bar_length_zero by done. by rewrite Z.mul_0_r, Z.div_0_l by lia. }
  pose proof (Z.div_mod (20 * c) m ltac:(lia)) as Hdm.
  pose proof (Z.mod_pos_bound (20 * c) m Hm) as Hr.
  set (k := 20 * c / m) in *. set (r := (20 * c) mod m) in *.
  assert (Hk : 0 <= k <= 20).
  { split; [apply Z.div_pos; lia|].
    apply Z.div_le_upper_bound; lia. }
  destruct (Z.eq_dec r 0) as [Hr0|Hr0].
  - assert (Hk1 : 1 <= k) by nia.
    rewrite (bar_length_scale c m k 20) by lia.
    apply bar_length_twentieths. lia.
  - destruct (bar_length_rounding c m ltac:(lia))
      as (q1 & q2 & P1 & P2 & HP1 & HP2 & Hq1 & Hq2 & ->).
    change (2 ^ 52) with 4503599627370496 in HP1.
    change (2 ^ 48) with 281474976710656 in HP2.
    change (2 ^ 46) with 70368744177664 in Hm46.
    f_equal. symmetry.
    assert (Hlo : k * P1 <= 20 * q1).
    { apply (Z.mul_le_mono_pos_l _ _ m); [lia|].
      assert (20 * (q1 * m) > 20 * (c * P1 - m)) by lia.
      assert (20 * c * P1 = k * m * P1 + r * P1) by nia.
      assert (P1 <= r * P1) by nia.
      nia. }
    assert (Hhi : 20 * q1 * P2 + P1 <= (k + 1) * P2 * P1).
    { apply (Z.mul_le_mono_pos_l _ _ m); [lia|].
      assert (H1 : 20 * (q1 * m) < 20 * (c * P1 + m)) by lia.
      assert (H2 : 20 * c * P1 = k * m * P1 + r * P1) by nia.
      assert (H3 : r * P1 <= (m - 1) * P1) by nia.
      assert (H4 : 20 * q1 * m <= (k + 1) * m * P1 - P1 + 20 * m) by nia.
      assert (H5 : m * P1 <= P2 * (P1 - 20 * m)).
      { assert (281474976710656 * (P1 - 20 * m) <= P2 * (P1 - 20 * m)) by nia.
        assert (m * P1 <= 70368744177664 * P1) by nia.
        lia. }
      assert (H6 : 20 * q1 * m * P2 <= ((k + 1) * m * P1 - P1 + 20 * m) * P2).
      { apply Z.mul_le_mono_nonneg_r; lia. }
      nia. }
    apply (Z.div_unique_pos q2 P2 k (q2 - P2 * k)); [|lia].
    assert (k * P2 * P1 - P1 < q2 * P1) by nia.
    assert (q2 * P1 < (k + 1) * P2 * P1) by lia.
    nia.
Qed.
End BarLength.

(** ** Procedures that print *)

(** Every printed line satisfies [P] and every raised exception [E]. *)
Definition satisfies {A : Type} (P : line -> Prop) (E : exn -> Prop)
    (p : Print A) : Prop :=
  Forall P (printed p) /\ forall e, raised p = Some e -> E e.

Section PrintFacts.
Context (P : line -> Prop) (E : exn -> Prop).

Lemma sat_ret {A : Type} (x : A) : satisfies P E (mret x).
Proof. split; [constructor | intros e He; discriminate]. Qed.

Lemma sat_print l : P l -> satisfies P E (print l).
Proof. intros Hl. split; [by repeat constructor | intros e He; discriminate]. Qed.

Lemma sat_lift {A : Type} (r : exn + A) :
  (forall e, r = inl e -> E e) -> satisfies P E (lift r).
Proof.
  intros Hr. split; [constructor|]. intros e. unfold raised, lift. simpl.
  destruct r as [e'|x]; [|discriminate]. intros [= <-]. by apply Hr.
Qed.

Lemma sat_bind {A B : Type} (m : Print A) (f : A -> Print B) :
  satisfies P E m ->
  (forall x, snd m = inr x -> satisfies P E (f x)) ->
  satisfies P E (m ≫= f).
Proof.
  intros [Hm1 Hm2] Hf. destruct m as [out [e|x]]; unfold mbind, Print_bind.
  - split; [exact Hm1 | exact Hm2].
  - destruct (Hf x eq_refl) as [Hf1 Hf2]. destruct (f x) as [out' r].
    split; [apply Forall_app; split; [exact Hm1 | exact Hf1] | exact Hf2].
Qed.

Lemma sat_when (c : bool) (body : Print unit) :
  (c = true -> satisfies P E body) -> satisfies P E (when c body).
Proof. destruct c; simpl; [auto | intros _; apply sat_ret]. Qed.

Lemma sat_for_each {A : Type} (l : list A) (body : A -> Print unit) :
  (forall x, x ∈ l -> satisfies P E (body x)) -> satisfies P E (for_each l body).
Proof.
  induction l as [|x l IH]; intros Hb; simpl; [apply sat_ret|].
  apply sat_bind; [apply Hb; left|]. intros _ _. apply IH.
  intros y Hy. apply Hb. by right.
Qed.

Lemma sat_print_all (ls : list line) : Forall P ls -> satisfies P E (print_all ls).
Proof.
  intros Hls. apply sat_for_each. intros l Hl. apply sat_print.
  rewrite Forall_forall in Hls. by apply Hls.
Qed.

Lemma sat_bar_line glyph values label count :
  (forall e, py_max values = inl e -> E e) ->
  (forall M e, py_max values = inr M -> bar_length count M = inl e -> E e) ->
  (forall e, label = inl e -> E e) ->
  (forall M b s, py_max values = inr M -> bar_length count M = inr b ->
                 label = inr s -> P (Bar glyph s b count)) ->
  satisfies P E (bar_line glyph values label count).
Proof.
  intros Hmax Hbar Hlabel Hline. unfold bar_line.
  apply sat_bind; [by apply sat_lift|]. intros M HM. simpl in HM.
  apply sat_bind; [apply sat_lift; intros e; by apply (Hbar M)|].
  intros b Hb. simpl in Hb.
  apply sat_bind; [by apply sat_lift|]. intros s Hs. simpl in Hs.
  apply sat_print. by apply (Hline M).
Qed.
End PrintFacts.

Lemma satisfies_impl {A : Type} (P Q : line -> Prop) (E F : exn -> Prop)
    (p : Print A) :
  (forall l, P l -> Q l) -> (forall e, E e -> F e) ->
  satisfies P E p -> satisfies Q F p.
Proof.
  intros HPQ HEF [H1 H2]. split; [by eapply Forall_impl | auto].
Qed.

(** A loop whose body prints one line and returns. *)
Lemma for_each_lines {A : Type} (l : list A) (body : A -> Print unit)
    (f : A -> line) :
  (forall x, x ∈ l -> body x = ([f x], inr tt)) ->
  for_each l body = (map f l, inr tt).
Proof.
  induction l as [|x l IH]; intros Hb; simpl; [done|].
  rewrite (Hb x) by left. unfold mbind, Print_bind.
  rewrite IH; [done|]. intros y Hy. apply Hb. by right.
Qed.

(** ** [max] and [min] *)

Lemma fold_max_spec (l : list Z) (x : Z) :
  let M := fold_left Z.max l x in
  M ∈ x :: l /\ Forall (fun y => y <= M) (x :: l).
Proof.
  revert x. induction l as [|y l IH]; intros x; simpl.
  - split; [left | repeat constructor; lia].
  - destruct (IH (Z.max x y)) as [Hin Hall].
    apply Forall_cons in Hall as [Hxy Hall]. split.
    + apply elem_of_cons in Hin as [Hin|Hin]; [|by do 2 right].
      rewrite Hin. destruct (Z.max_spec x y) as [[_ ->]|[_ ->]]; [right; left | left].
    + constructor; [lia|]. constructor; [lia|done].
Qed.

Lemma fold_min_spec (l : list Z) (x : Z) :
  let M := fold_left Z.min l x in
  M ∈ x :: l /\ Forall (fun y => M <= y) (x :: l).
Proof.
  revert x. induction l as [|y l IH]; intros x; simpl.
  - split; [left | repeat constructor; lia].
  - destruct (IH (Z.min x y)) as [Hin Hall].
    apply Forall_cons in Hall as [Hxy Hall]. split.
    + apply elem_of_cons in Hin as [Hin|Hin]; [|by do 2 right].
      rewrite Hin. destruct (Z.min_spec x y) as [[_ ->]|[_ ->]]; [left | right; left].
    + constructor; [lia|]. constructor; [lia|done].
Qed.

Lemma py_max_spec (l : list Z) :
  l <> [] -> exists M, py_max l = inr M /\ M ∈ l /\ Forall (fun y => y <= M) l.
Proof.
  destruct l as [|x l]; [done|]. intros _. eexists. split; [reflexivity|].
  apply fold_max_spec.
Qed.

Lemma py_min_spec (l : list Z) :
  l <> [] -> exists M, py_min l = inr M /\ M ∈ l /\ Forall (fun y => M <= y) l.
Proof.
  destruct l as [|x l]; [done|]. intros _. eexists. split; [reflexivity|].
  apply fold_min_spec.
Qed.

(** The largest element is determined by the two properties. *)
Lemma py_max_unique (l : list Z) (M : Z) :
  M ∈ l -> Forall (fun y => y <= M) l -> py_max l = inr M.
Proof.
  intros Hin Hall. destruct (py_max_spec l) as (M' & -> & Hin' & Hall').
  { intros ->. inversion Hin. }
  rewrite Forall_forall in Hall, Hall'.
  pose proof (Hall _ Hin'). pose proof (Hall' _ Hin). f_equal. lia.
Qed.

(** ** The stored tables *)

Definition table_positive {K : Type} (d : list (K * Z)) : Prop :=
  Forall (fun kv => 1 <= snd kv) d.

Definition count_desc {K : Type} (a b : K * Z) : Prop := snd b <= snd a.

Global Instance count_desc_trans {K : Type} : Transitive (@count_desc K).
Proof. unfold count_desc. intros a b c ??. lia. Qed.

Lemma table_sum_Permutation {K : Type} (d1 d2 : list (K * Z)) :
  d1 ≡ₚ d2 -> table_sum d1 = table_sum d2.
Proof.
  unfold table_sum, od_values.
  induction 1 as [|x l1 l2 _ IH|x y l|l1 l2 l3 _ IH1 _ IH2]; simpl; lia.
Qed.

Lemma table_sum_app {K : Type} (d1 d2 : list (K * Z)) :
  table_sum (d1 ++ d2) = table_sum d1 + table_sum d2.
Proof.
  unfold table_sum, od_values. induction d1 as [|x d1 IH]; simpl; lia.
Qed.

Lemma table_sum_nonneg {K : Type} (d : list (K * Z)) :
  table_positive d -> 0 <= table_sum d.
Proof.
  unfold table_sum, od_values. induction 1 as [|x d Hx _ IH]; simpl; lia.
Qed.

Lemma table_count_le_sum {K : Type} (d : list (K * Z)) (kv : K * Z) :
  table_positive d -> kv ∈ d -> snd kv <= table_sum d.
Proof.
  intros Hpos Hin. induction Hpos as [|x d Hx Hd IH]; [inversion Hin|].
  pose proof (table_sum_nonneg d Hd) as Hnn.
  unfold table_sum, od_values in *. simpl.
  apply elem_of_cons in Hin as [->|Hin]; [lia|]. specialize (IH Hin). lia.
Qed.

Lemma od_get_Permutation {K : Type} `{EqDecision K} (d1 d2 : list (K * Z)) (k : K) :
  NoDup (od_keys d1) -> d1 ≡ₚ d2 -> od_get d1 k 0 = od_get d2 k 0.
Proof.
  assert (Hget : forall d : list (K * Z), NoDup (od_keys d) ->
            forall v, (k, v) ∈ d -> od_get d k 0 = v).
  { induction d as [|[k0 v0] d IH]; intros Hnd v Hin; [inversion Hin|].
    unfold od_keys in Hnd. simpl in Hnd. apply NoDup_cons in Hnd as [Hk0 Hnd].
    simpl. apply elem_of_cons in Hin as [[= -> ->]|Hin].
    - by rewrite decide_True.
    - rewrite decide_False; [by apply IH|]. intros <-. apply Hk0.
      apply list_elem_of_In, (in_map fst d (k, v)), list_elem_of_In, Hin. }
  assert (Hnone : forall d : list (K * Z), k ∉ od_keys d -> od_get d k 0 = 0).
  { induction d as [|[k0 v0] d IH]; intros Hk; simpl; [done|].
    unfold od_keys in Hk. simpl in Hk. apply not_elem_of_cons in Hk as [? ?].
    rewrite decide_False by done. by apply IH. }
  intros Hnd Hperm.
  assert (Hnd2 : NoDup (od_keys d2)).
  { unfold od_keys in *. by rewrite <- (fmap_Permutation fst _ _ Hperm). }
  destruct (decide (k ∈ od_keys d1)) as [Hin|Hnin].
  - apply list_elem_of_In, in_map_iff in Hin as ([k' v] & Hk & Hin).
    simpl in Hk. subst k'. apply list_elem_of_In in Hin.
    rewrite (Hget d1 Hnd v Hin). symmetry. apply Hget; [done|].
    by rewrite <- Hperm.
  - rewrite Hnone by done. symmetry. apply Hnone. intros Hin. apply Hnin.
    unfold od_keys in *. by rewrite (fmap_Permutation fst _ _ Hperm).
Qed.

Section StoredTables.
Context (mds : list metadata).

Lemma stats_tables :
  let s := get_collection_stats (Some mds) in
  total_games s = Some (Z.of_nat (length mds))
  /\ default [] (platforms s) = platform_table mds
  /\ default [] (years s) = year_table mds
  /\ default [] (genres s) = genre_table mds
  /\ default [] (publishers s) = publisher_table mds.
Proof.
  destruct (decide (mds = [])) as [->|Hne]; [by repeat split|].
  cbv zeta. by rewrite get_collection_stats_docs.
Qed.

Lemma by_count_desc_sorted {K : Type} (d : list (K * Z)) :
  StronglySorted count_desc (py_sorted by_count_desc d).
Proof.
  apply py_sorted_StronglySorted; [apply _| |];
    unfold by_count_desc, count_desc; intros x y.
  - rewrite Z.ltb_lt. lia.
  - rewrite Z.ltb_ge. lia.
Qed.

Lemma by_count_desc_stable {K : Type} (d : list (K * Z)) (c : Z) :
  filter (fun kv => snd kv = c) (py_sorted by_count_desc d)
  = filter (fun kv => snd kv = c) d.
Proof.
  apply (py_sorted_stable by_count_desc snd).
  unfold by_count_desc. intros x y. rewrite Z.ltb_lt. lia.
Qed.

Lemma item_ltb_sorted (d : list (string * Z)) :
  StronglySorted item_le (py_sorted item_ltb d).
Proof.
  apply py_sorted_StronglySorted; [apply _| |]; intros x y.
  - apply item_ltb_true.
  - apply item_ltb_false.
Qed.

Lemma year_table_sorted :
  StronglySorted (fun a b => str_lt (fst a) (fst b)) (year_table mds).
Proof.
  apply item_le_keys; [|apply item_ltb_sorted].
  apply py_sorted_keys_NoDup, frequency_table_NoDup.
Qed.

Lemma sorted_table_positive {K : Type} `{EqDecision K}
    (lt : K * Z -> K * Z -> bool) (ks : list K) :
  table_positive (py_sorted lt (frequency_table ks)).
Proof.
  unfold table_positive. rewrite py_sorted_Permutation.
  apply frequency_table_positive.
Qed.

Lemma sorted_table_sum {K : Type} `{EqDecision K}
    (lt : K * Z -> K * Z -> bool) (ks : list K) :
  table_sum (py_sorted lt (frequency_table ks)) = Z.of_nat (length ks).
Proof.
  rewrite (table_sum_Permutation _ _ (py_sorted_Permutation lt _)).
  apply frequency_table_sum.
Qed.

Lemma sorted_table_nil {K : Type} `{EqDecision K}
    (lt : K * Z -> K * Z -> bool) (ks : list K) :
  py_sorted lt (frequency_table ks) = [] <-> ks = [].
Proof.
  rewrite <- (frequency_table_nil ks). split; [|by intros ->].
  intros Hnil. apply Permutation_nil_r. rewrite <- Hnil.
  symmetry. apply py_sorted_Permutation.
Qed.
End StoredTables.

(** * The claims *)

(** C3, as stated, fails: of eleven records with eleven publishers the
    stored publisher table keeps ten, so its counts sum to 10, not 11. *)
Lemma publisher_counts_sum_counterexample :
  let s := get_collection_stats (Some eleven_publishers) in
  Z.of_nat (length eleven_publishers) = 11
  /\ table_sum (default [] (publishers s)) = 10.
Proof. vm_compute. split; reflexivity. Qed.

(** C3, amended: in the stored platform, year and genre tables the counts
    sum to the number of records; the publisher counts sum to it before
    the truncation, and the stored publisher table falls short of it by
    the counts of the entries after the tenth. *)
Theorem table_counts_sum (mds : list metadata) :
  let s := get_collection_stats (Some mds) in
  let ranked := py_sorted by_count_desc (c_publishers (count_records mds)) in
  table_sum (default [] (platforms s)) = Z.of_nat (length mds)
  /\ table_sum (default [] (years s)) = Z.of_nat (length mds)
  /\ table_sum (default [] (genres s)) = Z.of_nat (length mds)
  /\ table_sum (c_publishers (count_records mds)) = Z.of_nat (length mds)
  /\ table_sum (default [] (publishers s))
     = Z.of_nat (length mds) - table_sum (drop 10 ranked)
  /\ 0 <= table_sum (drop 10 ranked).
Proof.
  intros s ranked. subst s ranked.
  destruct (stats_tables mds) as (_ & -> & -> & -> & ->).
  rewrite count_records_spec. cbn [c_publishers].
  unfold platform_table, year_table, genre_table, publisher_table.
  rewrite !sorted_table_sum, !length_map, frequency_table_sum, length_map.
  set (ranked := py_sorted by_count_desc (frequency_table (map publisher_of mds))).
  pose proof (sorted_table_sum by_count_desc (map publisher_of mds)) as Hsum.
  fold ranked in Hsum. rewrite length_map in Hsum.
  rewrite <- (take_drop 10 ranked), table_sum_app in Hsum.
  split_and!; try done; [lia|].
  apply table_sum_nonneg. unfold table_positive.
  apply Forall_drop, sorted_table_positive.
Qed.

Lemma occurrences_app {K : Type} `{EqDecision K} (k : K) (l1 l2 : list K) :
  occurrences k (l1 ++ l2) = occurrences k l1 + occurrences k l2.
Proof. unfold occurrences. rewrite filter_app, length_app. lia. Qed.

Lemma occurrences_insert {K : Type} `{EqDecision K} (k : K) (l1 l2 : list K) :
  occurrences k (l1 ++ k :: l2) = occurrences k (l1 ++ l2) + 1.
Proof.
  rewrite !occurrences_app. unfold occurrences.
  rewrite filter_cons_True by done. simpl length. lia.
Qed.

Lemma unknown_count_spec (f : tracked) (mds : list metadata) :
  unknown_count f (count_records mds)
  = match f with
    | Platform => occurrences (VStr "Unknown") (map platform_of mds)
    | YearOfRelease => occurrences "Unknown"%string (map year_of mds)
    | Genre => occurrences (VStr "Unknown") (map genre_of mds)
    | Publisher => occurrences (VStr "Unknown") (map publisher_of mds)
    end.
Proof.
  rewrite count_records_spec. destruct f; simpl; apply frequency_table_get.
Qed.

Lemma stored_unknown_count_spec (f : tracked) (mds : list metadata) :
  f <> Publisher ->
  stored_unknown_count f (get_collection_stats (Some mds))
  = unknown_count f (count_records mds).
Proof.
  intros Hf. destruct (stats_tables mds) as (_ & Hp & Hy & Hg & _).
  rewrite count_records_spec.
  destruct f; [| | |done]; unfold stored_unknown_count, unknown_count;
    rewrite ?Hp, ?Hy, ?Hg; cbn [c_platforms c_years c_genres];
    unfold platform_table, year_table, genre_table;
    (apply od_get_Permutation;
     [apply py_sorted_keys_NoDup, frequency_table_NoDup
     |apply py_sorted_Permutation]).
Qed.

(** C4, as stated, fails for a null value: [get] returns the [None] that
    is stored, and the record is counted under [None]. *)
Lemma null_field_counterexample :
  let md := record_of [("Name", VStr "Pong"); ("Platform", VNone)] in
  let s := get_collection_stats (Some [md]) in
  md !! "Platform" = Some VNone
  /\ platforms s = Some [(VNone, 1)]
  /\ stored_unknown_count Platform s = 0.
Proof. vm_compute. repeat split; reflexivity. Qed.

(** C4, amended: a record in which a tracked field is absent is counted
    under ["Unknown"] in the table of that field: with the record the
    bucket holds one more than without it. The stored platform, year and
    genre tables show that count. *)
Theorem missing_field_counted_unknown (f : tracked) (mds1 mds2 : list metadata)
    (md : metadata) :
  md !! field_name f = None ->
  unknown_count f (count_records (mds1 ++ md :: mds2))
  = unknown_count f (count_records (mds1 ++ mds2)) + 1
  /\ match f with
     | Publisher => True
     | _ => stored_unknown_count f (get_collection_stats (Some (mds1 ++ md :: mds2)))
            = unknown_count f (count_records (mds1 ++ md :: mds2))
     end.
Proof.
  intros Hmd. split.
  - rewrite !unknown_count_spec.
    destruct f; simpl in Hmd; rewrite !map_app; simpl map.
    + replace (platform_of md) with (VStr "Unknown")
        by (unfold platform_of, md_get; by rewrite Hmd).
      apply occurrences_insert.
    + replace (year_of md) with "Unknown"%string
        by (unfold year_of, md_get; by rewrite Hmd).
      apply occurrences_insert.
    + replace (genre_of md) with (VStr "Unknown")
        by (unfold genre_of, md_get; by rewrite Hmd).
      apply occurrences_insert.
    + replace (publisher_of md) with (VStr "Unknown")
        by (unfold publisher_of, md_get; by rewrite Hmd).
      apply occurrences_insert.
  - destruct f; [| | |done]; by apply stored_unknown_count_spec.
Qed.

Lemma missing_field_counted_unknown_witness :
  pong !! field_name Genre = None
  /\ unknown_count Genre (count_records ([pong] ++ pong :: [pong]))
     = unknown_count Genre (count_records ([pong] ++ [pong])) + 1.
Proof.
  split; [reflexivity|].
  exact (proj1 (missing_field_counted_unknown Genre [pong] [pong] pong eq_refl)).
Defined.

Lemma year_table_get (mds : list metadata) (k : string) :
  od_get (year_table mds) k 0 = occurrences k (map year_of mds).
Proof.
  rewrite <- frequency_table_get. unfold year_table.
  apply od_get_Permutation; [|apply py_sorted_Permutation].
  apply py_sorted_keys_NoDup, frequency_table_NoDup.
Qed.

(** C6: the year is counted under its string: a record with the year as
    the integer [n] and one with it as the string of [n] make one bucket
    of count 2, in either order; among other records, wherever the two
    stand, they add 2 to the bucket of that string. So do the integer
    1998 and the string "1998". *)
Theorem year_int_and_str_collapse (n : Z) (r1 r2 : metadata)
    (mds1 mds2 mds3 : list metadata) :
  r1 !! "YearOfRelease" = Some (VInt n) ->
  r2 !! "YearOfRelease" = Some (VStr (pretty n)) ->
  let bucket (mds : list metadata) :=
    od_get (default [] (years (get_collection_stats (Some mds)))) (pretty n) 0 in
  years (get_collection_stats (Some [r1; r2])) = Some [(pretty n, 2)]
  /\ years (get_collection_stats (Some [r2; r1])) = Some [(pretty n, 2)]
  /\ bucket (mds1 ++ r1 :: mds2 ++ r2 :: mds3) = bucket (mds1 ++ mds2 ++ mds3) + 2
  /\ bucket (mds1 ++ r2 :: mds2 ++ r1 :: mds3) = bucket (mds1 ++ mds2 ++ mds3) + 2.
Proof.
  intros H1 H2 bucket.
  assert (Hy1 : year_of r1 = pretty n) by (unfold year_of, md_get; by rewrite H1).
  assert (Hy2 : year_of r2 = pretty n) by (unfold year_of, md_get; by rewrite H2).
  assert (Hpair : forall a b, year_of a = pretty n -> year_of b = pretty n ->
            years (get_collection_stats (Some [a; b])) = Some [(pretty n, 2)]).
  { intros a b Ha Hb. rewrite get_collection_stats_docs by done. simpl. f_equal.
    unfold year_table. simpl map. rewrite Ha, Hb.
    unfold frequency_table. simpl first_seen.
    rewrite filter_cons_False by tauto. simpl map. unfold occurrences.
    rewrite !filter_cons_True by done. reflexivity. }
  assert (Hbucket : forall mds, bucket mds = occurrences (pretty n) (map year_of mds)).
  { intros mds. unfold bucket.
    destruct (stats_tables mds) as (_ & _ & -> & _ & _). apply year_table_get. }
  assert (Hins : forall a b, year_of a = pretty n -> year_of b = pretty n ->
            bucket (mds1 ++ a :: mds2 ++ b :: mds3)
            = bucket (mds1 ++ mds2 ++ mds3) + 2).
  { intros a b Ha Hb. rewrite !Hbucket.
    rewrite !map_app. simpl map. rewrite !map_app. simpl map. rewrite Ha, Hb.
    rewrite occurrences_insert, (app_assoc (map year_of mds1)), occurrences_insert.
    rewrite <- app_assoc. lia. }
  split; [by apply Hpair|]. split; [by apply Hpair|].
  split; by apply Hins.
Qed.

Lemma year_int_and_str_collapse_witness :
  years (get_collection_stats (Some
    [record_of [("Name", VStr "Half-Life"); ("YearOfRelease", VInt 1998)];
     record_of [("Name", VStr "StarCraft"); ("YearOfRelease", VStr "1998")]]))
  = Some [("1998"%string, 2)]
  /\ years (get_collection_stats (Some
       [record_of [("Name", VStr "StarCraft"); ("YearOfRelease", VStr "1998")];
        record_of [("Name", VStr "Half-Life"); ("YearOfRelease", VInt 1998)]]))
     = Some [("1998"%string, 2)].
Proof.
  destruct (year_int_and_str_collapse 1998
    (record_of [("Name", VStr "Half-Life"); ("YearOfRelease", VInt 1998)])
    (record_of [("Name", VStr "StarCraft"); ("YearOfRelease", VStr "1998")])
    [] [] [] eq_refl eq_refl) as (Hab & Hba & _).
  split; [exact Hab | exact Hba].
Defined.

Lemma StronglySorted_take {A : Type} (R : relation A) (n : nat) (l : list A) :
  StronglySorted R l -> StronglySorted R (take n l).
Proof.
  intros Hl. revert n. induction Hl as [|x l Hl IH Hx]; intros [|n]; simpl;
    try constructor; [apply IH|].
  eapply Forall_take in Hx. exact Hx.
Qed.

(** C7: the stored platform and genre tables hold the entries of the
    frequency table by non-increasing count, the entries of one count in
    the order in which their keys were first met; the year table holds
    them by ascending key; the publisher table is the first ten entries of
    the table ordered by non-increasing count. *)
Theorem tables_ordered (mds : list metadata) :
  let s := get_collection_stats (Some mds) in
  let p := default [] (platforms s) in
  let g := default [] (genres s) in
  let y := default [] (years s) in
  let pub := default [] (publishers s) in
  (StronglySorted count_desc p
   /\ p ≡ₚ frequency_table (map platform_of mds)
   /\ forall c, filter (fun kv => snd kv = c) p
               = filter (fun kv => snd kv = c) (frequency_table (map platform_of mds)))
  /\ (StronglySorted count_desc g
      /\ g ≡ₚ frequency_table (map genre_of mds)
      /\ forall c, filter (fun kv => snd kv = c) g
                  = filter (fun kv => snd kv = c) (frequency_table (map genre_of mds)))
  /\ (StronglySorted (fun a b => str_lt (fst a) (fst b)) y
      /\ y ≡ₚ frequency_table (map year_of mds))
  /\ (StronglySorted count_desc pub
      /\ (length pub <= 10)%nat
      /\ exists ranked,
           pub = take 10 ranked
           /\ StronglySorted count_desc ranked
           /\ ranked ≡ₚ frequency_table (map publisher_of mds)
           /\ forall c, filter (fun kv => snd kv = c) ranked
                       = filter (fun kv => snd kv = c)
                           (frequency_table (map publisher_of mds))).
Proof.
  intros s p g y pub. subst s p g y pub.
  destruct (stats_tables mds) as (_ & -> & -> & -> & ->).
  unfold platform_table, genre_table, publisher_table.
  split_and!.
  - apply by_count_desc_sorted.
  - apply py_sorted_Permutation.
  - intros c. apply by_count_desc_stable.
  - apply by_count_desc_sorted.
  - apply py_sorted_Permutation.
  - intros c. apply by_count_desc_stable.
  - apply year_table_sorted.
  - apply py_sorted_Permutation.
  - apply StronglySorted_take, by_count_desc_sorted.
  - rewrite length_take. lia.
  - eexists. split_and!; [reflexivity| | |].
    + apply by_count_desc_sorted.
    + apply py_sorted_Permutation.
    + intros c. apply by_count_desc_stable.
Qed.

(** ** The sections of the dashboard *)

Lemma format_s_raises (v : value) (e : exn) :
  format_s v = inl e -> e = ValueError \/ e = TypeError.
Proof. destruct v; simpl; intros [= <-]; auto. Qed.

Lemma od_values_elem_of {K : Type} (d : list (K * Z)) (k : K) (c : Z) :
  (k, c) ∈ d -> c ∈ od_values d.
Proof.
  intros Hin. apply list_elem_of_In, (in_map snd d (k, c)), list_elem_of_In, Hin.
Qed.

(** The largest count of a table with entries, and what the table says
    of every count. *)
Lemma table_max {K : Type} (d : list (K * Z)) :
  d <> [] -> table_positive d ->
  exists M, py_max (od_values d) = inr M
            /\ M ∈ od_values d
            /\ forall k c, (k, c) ∈ d -> 1 <= c <= M.
Proof.
  intros Hne Hpos. destruct (py_max_spec (od_values d)) as (M & HM & Hin & Hall).
  { destruct d; [done|discriminate]. }
  exists M. split_and!; [done|done|]. intros k c Hkc. split.
  - unfold table_positive in Hpos. rewrite Forall_forall in Hpos.
    apply (Hpos (k, c) Hkc).
  - rewrite Forall_forall in Hall. by apply Hall, (od_values_elem_of d k).
Qed.

(** The loop of a bar chart over the entries [shown] of a table [d]. *)
Lemma sat_bars {K : Type} (P : line -> Prop) (E : exn -> Prop) (glyph : string)
    (d shown : list (K * Z)) (fmt : K -> exn + string) :
  table_positive d -> shown ⊆ d ->
  (forall k e, fmt k = inl e -> E e) ->
  (forall s b c M, py_max (od_values d) = inr M -> 1 <= c <= M ->
                   bar_length c M = inr b -> P (Bar glyph s b c)) ->
  satisfies P E
    (for_each shown (fun '(k, c) => bar_line glyph (od_values d) (fmt k) c)).
Proof.
  intros Hpos Hsub Hfmt HP. apply sat_for_each. intros [k c] Hkc.
  apply Hsub in Hkc.
  destruct (table_max d) as (M & HM & _ & Hle); [by intros ->; inversion Hkc|done|].
  specialize (Hle k c Hkc).
  destruct (bar_length_bounds c M ltac:(lia)) as (b & Hb & _).
  apply sat_bar_line.
  - intros e He. rewrite HM in He. discriminate.
  - intros M' e [= <-]%(eq_trans (eq_sym HM)) He. rewrite Hb in He. discriminate.
  - apply Hfmt.
  - intros M' b' s [= <-]%(eq_trans (eq_sym HM)) Hb' _. by apply (HP s b' c M).
Qed.

Lemma take_subseteq {A : Type} (n : nat) (l : list A) : take n l ⊆ l.
Proof. apply sublist_subseteq, sublist_take. Qed.

Lemma last_n_subseteq {A : Type} (n : nat) (l : list A) : last_n n l ⊆ l.
Proof. apply sublist_subseteq, sublist_drop. Qed.

(** What is asked of a property of lines to hold of all that the
    dashboard prints for given tables: it holds of the fixed texts, and
    of the lines computed from the tables. *)
Record dashboard_lines (P : line -> Prop) (p g : list (value * Z))
    (y : list (string * Z)) (pub : list (value * Z)) : Prop := {
  dl_text : forall s, Text s <> no_data_notice -> P (Text s);
  dl_total : forall n, P (TotalGames n);
  dl_platform : forall s b c M,
    py_max (od_values p) = inr M -> 1 <= c <= M -> bar_length c M = inr b ->
    P (Bar "█" s b c);
  dl_genre : forall s b c M,
    py_max (od_values g) = inr M -> 1 <= c <= M -> bar_length c M = inr b ->
    P (Bar "█" s b c);
  dl_year : forall s b c M,
    py_max (od_values y) = inr M -> 1 <= c <= M -> bar_length c M = inr b ->
    P (Bar "▓" s b c);
  dl_publisher : forall s c, P (PublisherLine s c);
  dl_range : forall lo hi,
    py_min (year_values y) = inr lo -> py_max (year_values y) = inr hi ->
    P (YearRange lo hi);
  dl_unique : forall n,
    P (UniquePlatforms n) /\ P (UniqueGenres n) /\ P (UniquePublishers n)
}.

Definition format_error (e : exn) : Prop := e = ValueError \/ e = TypeError.

Section Sections.
Context (P : line -> Prop) (p g : list (value * Z)) (y : list (string * Z))
  (pub : list (value * Z)).
Context (HP : dashboard_lines P p g y pub).
Context (Hp : table_positive p) (Hg : table_positive g) (Hy : table_positive y).

Lemma sat_text s :
  bool_decide (Text s <> no_data_notice) = true ->
  satisfies P format_error (print (Text s)).
Proof.
  intros Hs. apply sat_print, (dl_text P p g y pub HP).
  by apply bool_decide_eq_true in Hs.
Qed.

Lemma sat_display_platforms : satisfies P format_error (display_platforms p).
Proof.
  unfold display_platforms. apply sat_when. intros _.
  apply sat_bind; [by apply sat_text|]. intros _ _.
  apply sat_bind; [by apply sat_text|]. intros _ _.
  apply sat_bars; [done|apply take_subseteq| |apply (dl_platform P p g y pub HP)].
  intros k e. apply format_s_raises.
Qed.

Lemma sat_display_genres : satisfies P format_error (display_genres g).
Proof.
  unfold display_genres. apply sat_when. intros _.
  apply sat_bind; [by apply sat_text|]. intros _ _.
  apply sat_bind; [by apply sat_text|]. intros _ _.
  apply sat_bars; [done|apply take_subseteq| |apply (dl_genre P p g y pub HP)].
  intros k e. apply format_s_raises.
Qed.

Lemma sat_display_years : satisfies P format_error (display_years y).
Proof.
  unfold display_years. apply sat_when. intros _.
  apply sat_bind; [by apply sat_text|]. intros _ _.
  apply sat_bind; [by apply sat_text|]. intros _ _.
  apply (sat_bars P format_error "▓" y (recent_years y) (fun k => inr k));
    [done| |done|apply (dl_year P p g y pub HP)].
  unfold recent_years. etransitivity; [apply last_n_subseteq|].
  intros x. by rewrite py_sorted_Permutation.
Qed.

Lemma sat_display_publishers : satisfies P format_error (display_publishers pub).
Proof.
  unfold display_publishers. apply sat_when. intros _.
  apply sat_bind; [by apply sat_text|]. intros _ _.
  apply sat_bind; [by apply sat_text|]. intros _ _.
  apply sat_for_each. intros [k c] _. apply sat_print, (dl_publisher P p g y pub HP).
Qed.

Lemma sat_summary_statistics :
  satisfies P format_error (summary_statistics p g y pub).
Proof.
  unfold summary_statistics. apply sat_when. intros _.
  apply sat_when. intros Hne.
  destruct (py_min_spec (year_values y)) as (lo & Hlo & _);
    [by destruct (year_values y)|].
  destruct (py_max_spec (year_values y)) as (hi & Hhi & _);
    [by destruct (year_values y)|].
  apply sat_bind; [by apply sat_text|]. intros _ _.
  apply sat_bind; [by apply sat_text|]. intros _ _.
  rewrite Hlo, Hhi.
  apply sat_bind; [by apply sat_lift|]. intros lo' [= <-].
  apply sat_bind; [by apply sat_lift|]. intros hi' [= <-].
  apply sat_bind; [by apply sat_print, (dl_range P p g y pub HP)|]. intros _ _.
  apply sat_bind; [apply sat_print, (dl_unique P p g y pub HP)|]. intros _ _.
  apply sat_bind; [apply sat_print, (dl_unique P p g y pub HP)|]. intros _ _.
  apply sat_print, (dl_unique P p g y pub HP).
Qed.
End Sections.

(** ** The whole dashboard *)

Lemma text_dashboard_missing :
  text_dashboard None = (header ++ [no_data_notice], inr tt).
Proof. reflexivity. Qed.

Lemma text_dashboard_docs (c : collection) :
  text_dashboard (Some c)
  = (print_all header;;
     print (Text (nl ++ "📊 COLLECTION STATISTICS"));;
     print (Text (str_mul "-" 40));;
     print (TotalGames (Z.of_nat (length (col_metadatas c))));;
     display_platforms (platform_table (col_metadatas c));;
     display_genres (genre_table (col_metadatas c));;
     display_years (year_table (col_metadatas c));;
     display_publishers (publisher_table (col_metadatas c));;
     summary_statistics (platform_table (col_metadatas c))
       (genre_table (col_metadatas c)) (year_table (col_metadatas c))
       (publisher_table (col_metadatas c));;
     print_all footer).
Proof.
  unfold text_dashboard, render_stats.
  change (col_metadatas <$> Some c) with (Some (col_metadatas c)).
  destruct (stats_tables (col_metadatas c)) as (Ht & Hp & Hy & Hg & Hpub).
  cbv zeta in Ht, Hp, Hy, Hg, Hpub.
  set (s := get_collection_stats (Some (col_metadatas c))) in *.
  unfold stats_is_empty. rewrite Ht, Hp, Hy, Hg, Hpub. reflexivity.
Qed.

Lemma sat_text_dashboard (P : line -> Prop) (c : collection) :
  dashboard_lines P (platform_table (col_metadatas c))
    (genre_table (col_metadatas c)) (year_table (col_metadatas c))
    (publisher_table (col_metadatas c)) ->
  satisfies P format_error (text_dashboard (Some c)).
Proof.
  intros HP. rewrite text_dashboard_docs.
  assert (Htext : forall s, bool_decide (Text s <> no_data_notice) = true ->
            P (Text s)).
  { intros s Hs. apply (dl_text P _ _ _ _ HP). by apply bool_decide_eq_true in Hs. }
  apply sat_bind.
  { apply sat_print_all. repeat constructor; by apply Htext. }
  intros _ _. apply sat_bind; [by apply sat_print, Htext|].
  intros _ _. apply sat_bind; [by apply sat_print, Htext|].
  intros _ _. apply sat_bind; [apply sat_print, (dl_total P _ _ _ _ HP)|].
  intros _ _. apply sat_bind.
  { eapply sat_display_platforms; [exact HP|]. apply sorted_table_positive. }
  intros _ _. apply sat_bind.
  { eapply sat_display_genres; [exact HP|]. apply sorted_table_positive. }
  intros _ _. apply sat_bind.
  { eapply sat_display_years; [exact HP|]. apply sorted_table_positive. }
  intros _ _. apply sat_bind; [eapply sat_display_publishers; exact HP|].
  intros _ _. apply sat_bind; [eapply sat_summary_statistics; exact HP|].
  intros _ _. apply sat_print_all. repeat constructor; by apply Htext.
Qed.



Lemma shown_get (md : metadata) (field : string) :
  py_str (md_get md field (VStr "Unknown")) = shown md field.
Proof. unfold md_get, shown. by destruct (md !! field). Qed.

Lemma for_each_enumerate (mds : list metadata) (start : Z) :
  for_each (enumerate mds start) (fun '(i, metadata) =>
    print (ResultName i (py_str (md_get metadata "Name" (VStr "Unknown"))));;
    print (ResultPlatform (py_str (md_get metadata "Platform" (VStr "Unknown"))));;
    print (ResultYear (py_str (md_get metadata "YearOfRelease" (VStr "Unknown"))));;
    print (ResultGenre (py_str (md_get metadata "Genre" (VStr "Unknown")))))
  = (concat (imap (fun i md => result_lines (start + Z.of_nat i) md) mds), inr tt).
Proof.
  revert start. induction mds as [|md mds IH]; intros start; [done|].
  cbn [enumerate for_each]. rewrite IH.
  unfold mbind, Print_bind, print. rewrite !shown_get. cbn -[result_lines Z.add].
  rewrite Z.add_0_r. f_equal. change (?a :: ?b :: ?c :: ?d :: ?l)
    with ([a; b; c; d] ++ l). f_equal. f_equal.
  apply imap_ext. intros i x _. unfold compose. f_equal. lia.
Qed.

(** C8: a search prints the "no results" notice when the result list is
    empty, and otherwise, numbered from 1, the name, platform, year and
    genre of every result, ["Unknown"] standing for a missing field. *)
Theorem search_results_rendered (c : collection) (query : string) :
  test_search (Some c) query
  = ([SearchHeading query; Text (str_mul "-" 40)]
     ++ match col_query c query 3 with
        | [] => [Text "No results found."]
        | results =>
            Text "Top 3 Results:"
            :: concat (imap (fun i md => result_lines (Z.of_nat i + 1) md)
                         (map snd results))
        end, inr tt).
Proof.
  unfold test_search. destruct (col_query c query 3) as [|r results]; [done|].
  cbn [map nonempty]. rewrite for_each_enumerate.
  unfold mbind, Print_bind, print. cbn [app]. do 5 f_equal.
  apply imap_ext. intros i x _. f_equal. lia.
Qed.

(** C9, as stated, fails: a largest count of 0 is not a special case of
    the scaling: the division raises, and no bar is printed. *)
Lemma zero_maximum_counterexample :
  display_platforms [(VStr "Pong", 0)]
  = ([Text (nl ++ "🎮 GAMES BY PLATFORM"); Text (str_mul "-" 40)],
     inl ZeroDivisionError).
Proof. reflexivity. Qed.

(** C9, amended: the scaling has no special case for a largest count of
    0, where the division raises; rendering never divides by zero
    because every count of a stored table is at least 1, so the largest
    count of a section that is rendered is at least 1. *)
Theorem no_division_by_zero (self : option collection) (mds : list metadata) :
  let s := get_collection_stats (Some mds) in
  (forall count, bar_length count 0 = inl ZeroDivisionError)
  /\ raised (text_dashboard self) <> Some ZeroDivisionError
  /\ table_positive (default [] (platforms s))
  /\ table_positive (default [] (genres s))
  /\ table_positive (default [] (years s))
  /\ (forall M, py_max (od_values (default [] (platforms s))) = inr M -> 1 <= M)
  /\ (forall M, py_max (od_values (default [] (genres s))) = inr M -> 1 <= M)
  /\ (forall M, py_max (od_values (default [] (years s))) = inr M -> 1 <= M).
Proof.
  intros s. subst s. destruct (stats_tables mds) as (_ & -> & -> & -> & _).
  assert (Hmax : forall (K : Type) (d : list (K * Z)) (M : Z),
            table_positive d -> py_max (od_values d) = inr M -> 1 <= M).
  { intros K d M Hpos HM. destruct d as [|[k c] d]; [discriminate|].
    destruct (table_max ((k, c) :: d)) as (M' & HM' & _ & Hle); [done|done|].
    rewrite HM in HM'. injection HM' as <-.
    specialize (Hle k c ltac:(left)). lia. }
  split_and!.
  - intros count. reflexivity.
  - destruct self as [c|]; [|done].
    destruct (sat_text_dashboard (fun _ => True) c) as [_ Hraised].
    { by split. }
    intros He. destruct (Hraised _ He); discriminate.
  - apply sorted_table_positive.
  - apply sorted_table_positive.
  - apply sorted_table_positive.
  - intros M. apply Hmax, sorted_table_positive.
  - intros M. apply Hmax, sorted_table_positive.
  - intros M. apply Hmax, sorted_table_positive.
Qed.

(** C10: every bar the dashboard prints has between 0 and 20 blocks, and
    so has the bar computed for every entry shown of the platform, genre
    and year tables: its count is at least 1 and at most the largest
    count of the table, by which it is divided. *)
Theorem bar_lengths_bounded (self : option collection) (mds : list metadata) :
  let s := get_collection_stats (Some mds) in
  let p := default [] (platforms s) in
  let g := default [] (genres s) in
  let y := default [] (years s) in
  Forall bar_bounded (printed (text_dashboard self))
  /\ (forall k c, (k, c) ∈ take 10 p ->
        exists M b, py_max (od_values p) = inr M /\ 1 <= c <= M
                    /\ bar_length c M = inr b /\ 0 <= b <= 20)
  /\ (forall k c, (k, c) ∈ take 10 g ->
        exists M b, py_max (od_values g) = inr M /\ 1 <= c <= M
                    /\ bar_length c M = inr b /\ 0 <= b <= 20)
  /\ (forall k c, (k, c) ∈ recent_years y ->
        exists M b, py_max (od_values y) = inr M /\ 1 <= c <= M
                    /\ bar_length c M = inr b /\ 0 <= b <= 20).
Proof.
  intros s p g y. subst s p g y.
  destruct (stats_tables mds) as (_ & -> & -> & -> & _).
  assert (Hbar : forall (K : Type) (d shown : list (K * Z)) (k : K) (c : Z),
            table_positive d -> shown ⊆ d -> (k, c) ∈ shown ->
            exists M b, py_max (od_values d) = inr M /\ 1 <= c <= M
                        /\ bar_length c M = inr b /\ 0 <= b <= 20).
  { intros K d shown k c Hpos Hsub Hin. apply Hsub in Hin.
    destruct (table_max d) as (M & HM & _ & Hle);
      [by intros ->; inversion Hin|done|].
    specialize (Hle k c Hin).
    destruct (bar_length_bounds c M ltac:(lia)) as (b & Hb & Hb').
    by exists M, b. }
  split_and!.
  - destruct self as [c|]; [|by repeat constructor].
    apply (sat_text_dashboard bar_bounded c).
    split; try done; intros s b c' M _ Hc Hb; simpl;
      destruct (bar_length_bounds c' M ltac:(lia)) as (b' & Hb' & Hb'');
      rewrite Hb in Hb'; by injection Hb' as <-.
  - intros k c. apply Hbar; [apply sorted_table_positive|apply take_subseteq].
  - intros k c. apply Hbar; [apply sorted_table_positive|apply take_subseteq].
  - intros k c. apply Hbar; [apply sorted_table_positive|].
    unfold recent_years. etransitivity; [apply last_n_subseteq|].
    intros x. by rewrite py_sorted_Permutation.
Qed.

(** ** The summary *)

Lemma is_digit_spec (c : ascii) :
  is_digit c = true <-> (48 <= nat_of_ascii c <= 57)%nat.
Proof.
  unfold is_digit. rewrite andb_true_iff, !Nat.leb_le. tauto.
Qed.

Lemma py_isdigit_spec (s : string) : py_isdigit s = true <-> digits_only s.
Proof.
  unfold py_isdigit, digits_only. destruct s as [|c s].
  - split; [discriminate | by intros [? _]].
  - rewrite forallb_forall, Forall_forall. split.
    + intros Hall. split; [done|]. intros x Hx.
      apply is_digit_spec, Hall, list_elem_of_In, Hx.
    + intros [_ Hall] x Hx. apply is_digit_spec, Hall, list_elem_of_In, Hx.
Qed.

Lemma year_values_spec (ys : list (string * Z)) (v : Z) :
  v ∈ year_values ys <-> exists k, k ∈ od_keys ys /\ digits_only k /\ v = py_int k.
Proof.
  unfold year_values. rewrite list_elem_of_In, in_map_iff. split.
  - intros (k & <- & Hk). apply list_elem_of_In, list_elem_of_filter in Hk.
    destruct Hk as [Hk Hin]. apply andb_prop_elim in Hk as [_ Hk].
    exists k. split_and!; [done| |done].
    apply py_isdigit_spec. by apply Is_true_true.
  - intros (k & Hin & Hk & ->). exists k. split; [done|].
    apply list_elem_of_In, list_elem_of_filter. split; [|done].
    apply andb_prop_intro. split.
    + apply bool_decide_pack. intros ->. destruct Hk as [_ Hk].
      apply Forall_cons in Hk as [Hk _]. vm_compute in Hk. lia.
    + apply Is_true_true. by apply py_isdigit_spec.
Qed.






(** ** The scale of the bars *)

(** In a table ordered by non-increasing count the first entry has the
    largest count, among the first ten and in the whole table. *)
Lemma ranked_max {K : Type} (k : K) (c : Z) (d : list (K * Z)) (n : nat) :
  StronglySorted count_desc ((k, c) :: d) ->
  py_max (od_values (take (S n) ((k, c) :: d))) = inr c
  /\ py_max (od_values ((k, c) :: d)) = inr c.
Proof.
  intros Hs. apply StronglySorted_inv in Hs as [_ Hall].
  assert (Hle : Forall (fun x => x <= c) (od_values d)).
  { unfold od_values. apply Forall_fmap. eapply Forall_impl; [exact Hall|].
    intros [k' c']. unfold count_desc. simpl. lia. }
  split; apply py_max_unique.
  - simpl. left.
  - simpl. constructor; [lia|].
    change (Forall (fun x => x <= c) (map snd (take n d))).
    rewrite <- firstn_map. by apply Forall_take.
  - simpl. left.
  - simpl. constructor; [lia|done].
Qed.

(** The bars of a table with at most [2^46] records behind it. *)
Lemma table_bars {K : Type} (d : list (K * Z)) (M : Z) :
  table_positive d -> table_sum d <= 2 ^ 46 ->
  py_max (od_values d) = inr M ->
  1 <= M <= 2 ^ 46
  /\ bar_length M M = inr 20
  /\ forall k c, (k, c) ∈ d ->
       bar_length c M = inr (20 * c / M) /\ (20 * c / M = 20 <-> c = M).
Proof.
  intros Hpos Hsum HM.
  assert (Hne : d <> []) by (intros ->; discriminate).
  destruct (table_max d Hne Hpos) as (M' & HM' & Hin & Hle).
  rewrite HM in HM'. injection HM' as <-.
  apply list_elem_of_In, in_map_iff in Hin as ([k0 c0] & Hc0 & Hin).
  simpl in Hc0. subst c0. apply list_elem_of_In in Hin.
  pose proof (table_count_le_sum d _ Hpos Hin) as HMsum. simpl in HMsum.
  pose proof (Hle _ _ Hin) as HM1.
  split_and!; [lia|lia|apply bar_length_top; lia|].
  intros k c Hkc. specialize (Hle k c Hkc). split.
  - apply bar_length_exact; lia.
  - split.
    + intros H20. assert (20 * M <= 20 * c); [|lia].
      pose proof (Z.mul_div_le (20 * c) M ltac:(lia)). lia.
    + intros ->. rewrite Z.div_mul; lia.
Qed.

Section ScaledLines.
Context {M : Z} (HM46 : 1 <= M <= 2 ^ 46).

Lemma bar_scaled_exact (s : string) (glyph : string) (b c M' : Z) :
  inr M = inr (A := exn) M' -> 1 <= c <= M' -> bar_length c M' = inr b ->
  bar_scaled M (Bar glyph s b c).
Proof.
  intros [= <-] Hc Hb. simpl.
  rewrite bar_length_exact in Hb by lia. by injection Hb as <-.
Qed.

Lemma scaled_lines_platform (d : list (value * Z)) :
  py_max (od_values d) = inr M -> dashboard_lines (bar_scaled M) d [] [] [].
Proof.
  intros HM. split; try done.
  intros s b c M' HM'. rewrite HM in HM'. by apply bar_scaled_exact.
Qed.

Lemma scaled_lines_genre (d : list (value * Z)) :
  py_max (od_values d) = inr M -> dashboard_lines (bar_scaled M) [] d [] [].
Proof.
  intros HM. split; try done.
  intros s b c M' HM'. rewrite HM in HM'. by apply bar_scaled_exact.
Qed.

Lemma scaled_lines_year (d : list (string * Z)) :
  py_max (od_values d) = inr M -> dashboard_lines (bar_scaled M) [] [] d [].
Proof.
  intros HM. split; try done.
  intros s b c M' HM'. rewrite HM in HM'. by apply bar_scaled_exact.
Qed.
End ScaledLines.

(** The year section prints a bar for every entry shown. *)
Lemma display_years_printed (ys : list (string * Z)) (M : Z) :
  ys <> [] -> py_max (od_values ys) = inr M ->
  (forall k c, (k, c) ∈ recent_years ys -> bar_length c M = inr (20 * c / M)) ->
  display_years ys
  = ([Text (nl ++ "📅 GAMES BY YEAR"); Text (str_mul "-" 40)]
     ++ map (fun kc => Bar "▓" (fst kc) (20 * snd kc / M) (snd kc)) (recent_years ys),
     inr tt).
Proof.
  intros Hne HM Hbar. unfold display_years.
  destruct ys as [|kv ys]; [done|]. cbn [nonempty when].
  rewrite (for_each_lines _ _
    (fun kc => Bar "▓" (fst kc) (20 * snd kc / M) (snd kc))); [done|].
  intros [k c] Hkc. unfold bar_line. rewrite HM.
  change (lift (inr M) ≫= ?f) with (let '(out', r) := f M in ([] ++ out', r)).
  cbv beta. rewrite (Hbar k c Hkc). reflexivity.
Qed.

(** C1, as stated, fails in the year section: the divisor is the largest
    count of the whole year table. Of twelve records, two of the first
    year and one of each of ten later years, the ten later years are
    shown; their largest count is 1, the bars have 10 blocks, none 20. *)
Lemma year_bars_counterexample :
  let y := default [] (years (get_collection_stats (Some twelve_years))) in
  py_max (od_values (recent_years y)) = inr 1
  /\ py_max (od_values y) = inr 2
  /\ printed (display_years y)
     = [Text (nl ++ "📅 GAMES BY YEAR"); Text (str_mul "-" 40)]
       ++ map (fun k => Bar "▓" k 10 1)
            ["1991"; "1992"; "1993"; "1994"; "1995"; "1996"; "1997"; "1998";
             "1999"; "2000"]%string
  /\ existsb is_full_bar (printed (display_years y)) = false.
Proof. vm_compute. repeat split; reflexivity. Qed.

(** C1, amended: for a collection of at most [2^46] records, in every
    section the bar of an entry shown has [floor (20 * count / M)] blocks,
    [M] being the largest count of the whole table of the section. The
    platform and genre sections show the first ten entries by
    non-increasing count: there [M] is the largest count shown as well,
    the count of the first entry, whose bar has 20 blocks. In the year
    section, which shows the last ten keys, a bar has 20 blocks exactly
    when its count is [M]. *)
Theorem bars_scaled_by_table_maximum (mds : list metadata) :
  mds <> [] -> Z.of_nat (length mds) <= 2 ^ 46 ->
  let s := get_collection_stats (Some mds) in
  let p := default [] (platforms s) in
  let g := default [] (genres s) in
  let y := default [] (years s) in
  exists Mp Mg My,
    (py_max (od_values p) = inr Mp
     /\ py_max (od_values (take 10 p)) = inr Mp
     /\ (exists k, head p = Some (k, Mp))
     /\ bar_length Mp Mp = inr 20
     /\ (forall k c, (k, c) ∈ take 10 p -> bar_length c Mp = inr (20 * c / Mp))
     /\ Forall (bar_scaled Mp) (printed (display_platforms p)))
    /\ (py_max (od_values g) = inr Mg
        /\ py_max (od_values (take 10 g)) = inr Mg
        /\ (exists k, head g = Some (k, Mg))
        /\ bar_length Mg Mg = inr 20
        /\ (forall k c, (k, c) ∈ take 10 g -> bar_length c Mg = inr (20 * c / Mg))
        /\ Forall (bar_scaled Mg) (printed (display_genres g)))
    /\ (py_max (od_values y) = inr My
        /\ (forall k c, (k, c) ∈ recent_years y ->
              bar_length c My = inr (20 * c / My) /\ (20 * c / My = 20 <-> c = My))
        /\ display_years y
           = ([Text (nl ++ "📅 GAMES BY YEAR"); Text (str_mul "-" 40)]
              ++ map (fun kc => Bar "▓" (fst kc) (20 * snd kc / My) (snd kc))
                   (recent_years y), inr tt)).
Proof.
  intros Hne Hlen s p g y. subst s p g y.
  destruct (stats_tables mds) as (_ & -> & -> & -> & _).
  assert (Hranked : forall ks : list value, ks <> [] ->
            Z.of_nat (length ks) <= 2 ^ 46 ->
            let d := py_sorted by_count_desc (frequency_table ks) in
            exists M, py_max (od_values d) = inr M
              /\ py_max (od_values (take 10 d)) = inr M
              /\ (exists k, head d = Some (k, M))
              /\ bar_length M M = inr 20
              /\ (forall k c, (k, c) ∈ take 10 d -> bar_length c M = inr (20 * c / M))
              /\ 1 <= M <= 2 ^ 46).
  { intros ks Hks Hlks d.
    pose proof (by_count_desc_sorted (frequency_table ks)) as Hs.
    pose proof (sorted_table_positive by_count_desc ks) as Hpos.
    pose proof (sorted_table_sum by_count_desc ks) as Hsum.
    fold d in Hs, Hpos, Hsum.
    destruct d as [|[k c] d'] eqn:Hd.
    { exfalso. apply Hks. by apply (sorted_table_nil by_count_desc). }
    destruct (ranked_max k c d' 9 Hs) as [Htake Hmax].
    destruct (table_bars ((k, c) :: d') c Hpos ltac:(lia) Hmax)
      as (HM & Htop & Hbars).
    exists c. split; [done|]. split; [done|]. split; [by exists k|].
    split; [done|]. split; [|done].
    intros k' c' Hin. apply (Hbars k' c'). by apply (take_subseteq 10). }
  destruct (Hranked (map platform_of mds)) as (Mp & Hp1 & Hp2 & Hp3 & Hp4 & Hp5 & Hp6);
    [by destruct mds|by rewrite length_map|].
  destruct (Hranked (map genre_of mds)) as (Mg & Hg1 & Hg2 & Hg3 & Hg4 & Hg5 & Hg6);
    [by destruct mds|by rewrite length_map|].
  pose proof (sorted_table_positive item_ltb (map year_of mds)) as Hypos.
  pose proof (sorted_table_sum item_ltb (map year_of mds)) as Hysum.
  rewrite length_map in Hysum.
  assert (Hyne : year_table mds <> []).
  { intros Hnil. apply (sorted_table_nil item_ltb) in Hnil. by destruct mds. }
  destruct (table_max (year_table mds) Hyne Hypos) as (My & HMy & _ & _).
  destruct (table_bars (year_table mds) My Hypos ltac:(unfold year_table; lia) HMy)
    as (HMy46 & _ & Hybars).
  assert (Hrecent : recent_years (year_table mds) ⊆ year_table mds).
  { unfold recent_years. etransitivity; [apply last_n_subseteq|].
    intros x. by rewrite py_sorted_Permutation. }
  exists Mp, Mg, My. unfold platform_table, genre_table.
  split; [|split].
  - split; [exact Hp1|]. split; [exact Hp2|]. split; [exact Hp3|].
    split; [exact Hp4|]. split; [exact Hp5|].
    apply (sat_display_platforms (bar_scaled Mp) _ [] [] []);
      [apply scaled_lines_platform; [exact Hp6 | exact Hp1]
      |apply sorted_table_positive].
  - split; [exact Hg1|]. split; [exact Hg2|]. split; [exact Hg3|].
    split; [exact Hg4|]. split; [exact Hg5|].
    apply (sat_display_genres (bar_scaled Mg) [] _ [] []);
      [apply scaled_lines_genre; [exact Hg6 | exact Hg1]
      |apply sorted_table_positive].
  - split; [exact HMy|]. split.
    + intros k c Hkc. apply (Hybars k c), Hrecent, Hkc.
    + apply display_years_printed; [exact Hyne | exact HMy |].
      intros k c Hkc. apply (Hybars k c), Hrecent, Hkc.
Qed.

Lemma bars_scaled_by_table_maximum_witness :
  let s := get_collection_stats (Some twelve_years) in
  twelve_years <> [] /\ Z.of_nat (length twelve_years) <= 2 ^ 46
  /\ exists Mp Mg My,
       py_max (od_values (default [] (platforms s))) = inr Mp
       /\ py_max (od_values (default [] (genres s))) = inr Mg
       /\ py_max (od_values (default [] (years s))) = inr My.
Proof.
  split; [discriminate|]. split; [vm_compute; discriminate|].
  destruct (bars_scaled_by_table_maximum twelve_years)
    as (Mp & Mg & My & (Hp & _) & (Hg & _) & (Hy & _)).
  - discriminate.
  - vm_compute. discriminate.
  - exists Mp, Mg, My. split; [exact Hp|]. split; [exact Hg | exact Hy].
Defined.

(** * Further properties of the code *)

(** ** The length of a bar *)

(** X1: for a count between 0 and the largest count, and at most [2^46]
    records, [int((count / max) * 20)], computed in double precision, is
    [floor (20 * count / max)]: the two roundings never show. *)
Theorem bar_is_floor (count maxc : Z) :
  0 <= count <= maxc -> 0 < maxc <= 2 ^ 46 ->
  bar_length count maxc = inr (20 * count / maxc).
Proof. intros Hc Hm. by apply bar_length_exact. Qed.

Lemma bar_is_floor_witness :
  0 <= 7 <= 20 /\ 0 < 20 <= 2 ^ 46 /\ bar_length 7 20 = inr 7.
Proof.
  split; [lia|]. split; [done|].
  apply (bar_is_floor 7 20); [lia | done].
Defined.

(** X2: the bar depends on the ratio of the count to the largest count
    only: multiplying both by the same positive number leaves it as it
    is, whatever their size. *)
Theorem bar_ratio_invariant (count maxc k : Z) :
  0 < count -> 0 < maxc -> 0 < k ->
  bar_length (k * count) (k * maxc) = bar_length count maxc.
Proof. intros Hc Hm Hk. apply bar_length_scale; nia. Qed.

Lemma bar_ratio_invariant_witness :
  0 < 1 /\ 0 < 3 /\ 0 < 2 ^ 60 /\ bar_length (2 ^ 60 * 1) (2 ^ 60 * 3) = bar_length 1 3.
Proof.
  split; [lia|]. split; [lia|]. split; [done|].
  apply (bar_ratio_invariant 1 3 (2 ^ 60)); [lia | lia | done].
Defined.

(** X3: up to [2^46] records a larger count never has a shorter bar. *)
Theorem bar_monotone (c1 c2 maxc : Z) :
  0 <= c1 <= c2 -> c2 <= maxc -> 0 < maxc <= 2 ^ 46 ->
  exists b1 b2,
    bar_length c1 maxc = inr b1 /\ bar_length c2 maxc = inr b2 /\ b1 <= b2.
Proof.
  intros Hc1 Hc2 Hm. exists (20 * c1 / maxc), (20 * c2 / maxc).
  split; [apply bar_length_exact; lia|]. split; [apply bar_length_exact; lia|].
  apply Z.div_le_mono; lia.
Qed.

Lemma bar_monotone_witness :
  0 <= 2 <= 5 /\ 5 <= 9 /\ 0 < 9 <= 2 ^ 46
  /\ exists b1 b2, bar_length 2 9 = inr b1 /\ bar_length 5 9 = inr b2 /\ b1 <= b2.
Proof.
  split; [lia|]. split; [lia|]. split; [done|].
  apply (bar_monotone 2 5 9); [lia | lia | done].
Defined.

(** ** The aggregator *)

(** X5: in the stored platform, genre and year tables the count of a key
    is the number of records counted under it, 0 for a key that is not
    there; so is the count of each entry of the stored publisher table. *)
Theorem bucket_counts (mds : list metadata) :
  let s := get_collection_stats (Some mds) in
  (forall k, od_get (default [] (platforms s)) k 0
             = occurrences k (map platform_of mds))
  /\ (forall k, od_get (default [] (genres s)) k 0
                = occurrences k (map genre_of mds))
  /\ (forall k, od_get (default [] (years s)) k 0
                = occurrences k (map year_of mds))
  /\ (forall k c, (k, c) ∈ default [] (publishers s) ->
                  c = occurrences k (map publisher_of mds)).
Proof.
  cbv zeta. destruct (stats_tables mds) as (_ & -> & -> & -> & ->).
  assert (Hget : forall (K : Type) (H : EqDecision K)
            (lt : K * Z -> K * Z -> bool) (ks : list K) (k : K),
            od_get (py_sorted lt (frequency_table ks)) k 0 = occurrences k ks).
  { intros K H lt ks k. rewrite <- frequency_table_get.
    apply od_get_Permutation; [|apply py_sorted_Permutation].
    apply py_sorted_keys_NoDup, frequency_table_NoDup. }
  split; [intros k; apply Hget|]. split; [intros k; apply Hget|].
  split; [intros k; apply Hget|].
  intros k c Hin. unfold publisher_table in Hin.
  apply (take_subseteq 10) in Hin. rewrite py_sorted_Permutation in Hin.
  unfold frequency_table in Hin.
  apply list_elem_of_In, in_map_iff in Hin as (k' & [= -> ->] & _). done.
Qed.

(** X6: the keys of a stored table are distinct, and the keys of the
    stored platform, genre and year tables are the values that occur in
    the records, ["Unknown"] among them when a record lacks the field. *)
Theorem table_keys (mds : list metadata) :
  let s := get_collection_stats (Some mds) in
  (NoDup (od_keys (default [] (platforms s)))
   /\ forall k, k ∈ od_keys (default [] (platforms s))
                <-> exists md, md ∈ mds /\ md_get md "Platform" (VStr "Unknown") = k)
  /\ (NoDup (od_keys (default [] (genres s)))
      /\ forall k, k ∈ od_keys (default [] (genres s))
                   <-> exists md, md ∈ mds /\ md_get md "Genre" (VStr "Unknown") = k)
  /\ (NoDup (od_keys (default [] (years s)))
      /\ forall k, k ∈ od_keys (default [] (years s))
                   <-> exists md, md ∈ mds
                         /\ py_str (md_get md "YearOfRelease" (VStr "Unknown")) = k)
  /\ NoDup (od_keys (default [] (publishers s))).
Proof.
  cbv zeta. destruct (stats_tables mds) as (_ & -> & -> & -> & ->).
  assert (Hkeys : forall (K : Type) (H : EqDecision K)
            (lt : K * Z -> K * Z -> bool) (f : metadata -> K) (k : K),
            k ∈ od_keys (py_sorted lt (frequency_table (map f mds)))
            <-> exists md, md ∈ mds /\ f md = k).
  { intros K H lt f k. unfold od_keys.
    rewrite (fmap_Permutation fst _ _ (py_sorted_Permutation lt _)).
    pose proof (frequency_table_keys (map f mds)) as Hk. unfold od_keys in Hk.
    assert (Hiff : k ∈ map fst (frequency_table (map f mds))
                   <-> exists md, md ∈ mds /\ f md = k); [|exact Hiff].
    rewrite Hk, first_seen_elem_of, list_elem_of_In, in_map_iff.
    split; intros (md & Hmd & Hin); exists md; split; try done;
      by apply list_elem_of_In. }
  split_and!.
  - apply py_sorted_keys_NoDup, frequency_table_NoDup.
  - intros k. apply (Hkeys _ _ by_count_desc platform_of).
  - apply py_sorted_keys_NoDup, frequency_table_NoDup.
  - intros k. apply (Hkeys _ _ by_count_desc genre_of).
  - apply py_sorted_keys_NoDup, frequency_table_NoDup.
  - intros k. apply (Hkeys _ _ item_ltb year_of).
  - apply take_keys_NoDup, py_sorted_keys_NoDup, frequency_table_NoDup.
Qed.

Lemma StronglySorted_app_elem_of {A : Type} (R : relation A) (l1 l2 : list A)
    (x1 x2 : A) :
  StronglySorted R (l1 ++ l2) -> x1 ∈ l1 -> x2 ∈ l2 -> R x1 x2.
Proof.
  induction l1 as [|y l1 IH]; simpl; intros Hs H1 H2; [inversion H1|].
  apply StronglySorted_inv in Hs as [Hs Hall].
  apply elem_of_cons in H1 as [->|H1]; [|by apply IH].
  rewrite Forall_forall in Hall. apply Hall, elem_of_app. by right.
Qed.

(** X7: the stored publisher table holds the largest counts: a publisher
    of the records that is left out of it occurs no more often than any
    publisher that is in it. *)
Theorem top_publishers_largest (mds : list metadata) (md : metadata)
    (k : value) (c : Z) :
  let pub := default [] (publishers (get_collection_stats (Some mds))) in
  md ∈ mds -> md_get md "Publisher" (VStr "Unknown") ∉ od_keys pub ->
  (k, c) ∈ pub ->
  occurrences (md_get md "Publisher" (VStr "Unknown")) (map publisher_of mds) <= c.
Proof.
  cbv zeta. destruct (stats_tables mds) as (_ & _ & _ & _ & ->).
  unfold publisher_table.
  set (ranked := py_sorted by_count_desc (frequency_table (map publisher_of mds))).
  set (k0 := md_get md "Publisher" (VStr "Unknown")).
  intros Hmd Hout Hin.
  pose proof (by_count_desc_sorted (frequency_table (map publisher_of mds))) as Hs.
  fold ranked in Hs. rewrite <- (take_drop 10 ranked) in Hs.
  assert (Hk0 : (k0, occurrences k0 (map publisher_of mds)) ∈ ranked).
  { unfold ranked. rewrite py_sorted_Permutation. unfold frequency_table.
    apply list_elem_of_In, in_map_iff. exists k0. split; [done|].
    apply list_elem_of_In, first_seen_elem_of, list_elem_of_In, in_map_iff.
    exists md. split; [done | by apply list_elem_of_In]. }
  rewrite <- (take_drop 10 ranked) in Hk0. apply elem_of_app in Hk0 as [Hk0|Hk0].
  - exfalso. apply Hout.
    apply list_elem_of_In, in_map_iff. eexists. split; [|apply list_elem_of_In, Hk0].
    done.
  - apply (StronglySorted_app_elem_of _ _ _ _ _ Hs Hin Hk0).
Qed.

Lemma top_publishers_largest_witness :
  let mds := eleven_publishers ++ take 10 eleven_publishers in
  let md := record_of [("Name", VStr "Game"); ("Publisher", VStr "Taito")] in
  let pub := default [] (publishers (get_collection_stats (Some mds))) in
  md ∈ mds /\ (md_get md "Publisher" (VStr "Unknown") ∉ od_keys pub)
  /\ (VStr "Sega", 2) ∈ pub
  /\ occurrences (VStr "Taito") (map publisher_of mds) <= 2.
Proof.
  assert (H1 : record_of [("Name", VStr "Game"); ("Publisher", VStr "Taito")]
               ∈ eleven_publishers ++ take 10 eleven_publishers).
  { apply elem_of_app. left. do 10 right. left. }
  assert (H2 : md_get (record_of [("Name", VStr "Game"); ("Publisher", VStr "Taito")])
                 "Publisher" (VStr "Unknown")
               ∉ od_keys (default [] (publishers (get_collection_stats
                   (Some (eleven_publishers ++ take 10 eleven_publishers)))))).
  { apply (bool_decide_unpack _). vm_compute. exact I. }
  assert (H3 : (VStr "Sega", 2)
               ∈ default [] (publishers (get_collection_stats
                   (Some (eleven_publishers ++ take 10 eleven_publishers))))).
  { apply (bool_decide_unpack _). vm_compute. exact I. }
  split; [exact H1|]. split; [exact H2|]. split; [exact H3|].
  exact (top_publishers_largest _ _ _ _ H1 H2 H3).
Defined.

(** ** What the dashboard raises *)





Definition is_str (v : value) : Prop :=
  match v with VStr _ => True | _ => False end.

Global Instance is_str_dec (v : value) : Decision (is_str v).
Proof. destruct v; simpl; apply _. Defined.








Lemma summary_statistics_printed (p g pub : list (value * Z))
    (ys : list (string * Z)) (lo hi : Z) :
  py_min (year_values ys) = inr lo -> py_max (year_values ys) = inr hi ->
  summary_statistics p g ys pub
  = ([Text (nl ++ "📈 SUMMARY"); Text (str_mul "-" 40);
      YearRange lo hi;
      UniquePlatforms (Z.of_nat (length p));
      UniqueGenres (Z.of_nat (length g));
      UniquePublishers (Z.of_nat (length pub))], inr tt).
Proof.
  intros Hlo Hhi. unfold summary_statistics.
  destruct ys as [|kv ys]; [discriminate|]. cbn [nonempty when].
  destruct (year_values (kv :: ys)) as [|v vs] eqn:Hvs; [discriminate|].
  cbn [nonempty when]. by rewrite Hlo, Hhi.
Qed.




(** ** The year section and the summary *)

Lemma StronglySorted_drop {A : Type} (R : relation A) (n : nat) (l : list A) :
  StronglySorted R l -> StronglySorted R (drop n l).
Proof.
  intros Hl. revert n. induction Hl as [|x l Hl IH Hx]; intros [|n]; simpl;
    try constructor; try done.
Qed.

(** X9: the year section shows the last ten entries of the stored year
    table, which sorting again leaves as they are: at most ten entries,
    by ascending key, and every key left out is smaller than every key
    shown. *)
Theorem year_section_entries (mds : list metadata) :
  let y := default [] (years (get_collection_stats (Some mds))) in
  recent_years y = last_n 10 y
  /\ length (recent_years y) = Nat.min 10 (length y)
  /\ StronglySorted (fun a b => str_lt (fst a) (fst b)) (recent_years y)
  /\ forall a b, a ∈ y -> a ∉ recent_years y -> b ∈ recent_years y ->
                 str_lt (fst a) (fst b).
Proof.
  cbv zeta. destruct (stats_tables mds) as (_ & _ & -> & _ & _).
  assert (Hid : recent_years (year_table mds) = last_n 10 (year_table mds)).
  { unfold recent_years. f_equal. apply (py_sorted_id item_ltb item_le).
    - intros x y. apply item_ltb_false.
    - apply item_ltb_sorted. }
  rewrite Hid. pose proof (year_table_sorted mds) as Hs.
  unfold last_n. set (y := year_table mds) in *.
  split; [done|]. split; [rewrite length_drop; lia|].
  split; [by apply StronglySorted_drop|].
  intros a b Ha Hna Hb.
  rewrite <- (take_drop (length y - 10) y) in Ha, Hs.
  apply elem_of_app in Ha as [Ha|Ha]; [|done].
  by apply (StronglySorted_app_elem_of _ _ _ _ _ Hs).
Qed.



(** ** Integer years *)

Definition digit_step (acc : Z) (c : ascii) : Z :=
  10 * acc + (Z.of_nat (nat_of_ascii c) - 48).

Lemma pretty_N_char_digit (d : N) :
  (d < 10)%N ->
  Z.of_nat (nat_of_ascii (pretty_N_char d)) - 48 = Z.of_N d
  /\ is_digit (pretty_N_char d) = true.
Proof.
  intros Hd.
  assert (Hcases : (d = 0 \/ d = 1 \/ d = 2 \/ d = 3 \/ d = 4 \/ d = 5 \/ d = 6
                    \/ d = 7 \/ d = 8 \/ d = 9)%N) by lia.
  repeat (destruct Hcases as [->|Hcases]; [by vm_compute|]).
  subst d. by vm_compute.
Qed.

Lemma pretty_N_go_digits (x : N) (s : string) :
  (0 < x)%N ->
  fold_left digit_step (list_ascii_of_string (pretty_N_go x s)) 0
  = fold_left digit_step (list_ascii_of_string s) (Z.of_N x)
  /\ forallb is_digit (list_ascii_of_string (pretty_N_go x s))
     = forallb is_digit (list_ascii_of_string s)
  /\ pretty_N_go x s <> EmptyString.
Proof.
  revert s. induction (N.lt_wf_0 x) as [x _ IH]. intros s Hx.
  rewrite pretty_N_go_step by done.
  pose proof (N.mod_lt x 10 ltac:(lia)) as Hmod.
  destruct (pretty_N_char_digit (x `mod` 10)%N Hmod) as [Hval Hdig].
  destruct (decide (x `div` 10 = 0)%N) as [Hz|Hnz].
  - rewrite Hz, pretty_N_go_0. simpl. rewrite Hdig. unfold digit_step at 2.
    rewrite Hval. split_and!; [|done|done]. f_equal.
    pose proof (N.div_mod x 10 ltac:(lia)). lia.
  - destruct (IH (x `div` 10)%N) with (s := String (pretty_N_char (x `mod` 10)) s)
      as (Hv & Hd & Hne); [apply N.div_lt; lia | by apply N.neq_0_lt_0 |].
    rewrite Hv, Hd. simpl. rewrite Hdig. unfold digit_step at 2. rewrite Hval.
    split_and!; [|done|done]. f_equal.
    pose proof (N.div_mod x 10 ltac:(lia)). lia.
Qed.

(** [int(str(n))] is [n], and [str(n)] is a string of digits, for an
    integer [n] that is not negative. *)
Lemma py_int_pretty (n : Z) :
  0 <= n -> py_int (pretty n) = n /\ py_isdigit (pretty n) = true.
Proof.
  intros Hn. destruct n as [|q|q]; [done| |lia].
  change (pretty (Z.pos q)) with (pretty_N_go (N.pos q) "").
  destruct (pretty_N_go_digits (N.pos q) "" ltac:(lia)) as (Hv & Hd & Hne).
  split.
  - unfold py_int. fold digit_step. by rewrite Hv.
  - unfold py_isdigit. destruct (pretty_N_go (N.pos q) "") eqn:Hp; [done|].
    by rewrite Hd.
Qed.

Lemma Forall2_elem_of_l {A B : Type} (P : A -> B -> Prop) (l1 : list A)
    (l2 : list B) (x : A) :
  Forall2 P l1 l2 -> x ∈ l1 -> exists y, y ∈ l2 /\ P x y.
Proof.
  induction 1 as [|a b l1 l2 Hab _ IH]; intros Hx; [inversion Hx|].
  apply elem_of_cons in Hx as [->|Hx].
  - exists b. split; [left | done].
  - destruct (IH Hx) as (y & Hy & HP). exists y. split; [by right | done].
Qed.

Lemma Forall2_elem_of_r {A B : Type} (P : A -> B -> Prop) (l1 : list A)
    (l2 : list B) (y : B) :
  Forall2 P l1 l2 -> y ∈ l2 -> exists x, x ∈ l1 /\ P x y.
Proof.
  induction 1 as [|a b l1 l2 Hab _ IH]; intros Hy; [inversion Hy|].
  apply elem_of_cons in Hy as [->|Hy].
  - exists a. split; [left | done].
  - destruct (IH Hy) as (x & Hx & HP). exists x. split; [by right | done].
Qed.

Lemma py_min_ext (l1 l2 : list Z) (lo : Z) :
  (forall v, v ∈ l1 <-> v ∈ l2) -> py_min l2 = inr lo -> py_min l1 = inr lo.
Proof.
  intros Hext Hlo.
  assert (Hne2 : l2 <> []) by (intros ->; discriminate).
  destruct (py_min_spec l2 Hne2) as (lo2 & Hlo2 & Hin2 & Hall2).
  rewrite Hlo in Hlo2. injection Hlo2 as <-.
  assert (Hne1 : l1 <> []).
  { intros ->. apply Hext in Hin2. inversion Hin2. }
  destruct (py_min_spec l1 Hne1) as (lo1 & Hlo1 & Hin1 & Hall1).
  rewrite Hlo1. f_equal. rewrite Forall_forall in Hall1, Hall2.
  pose proof (Hall1 lo (proj2 (Hext lo) Hin2)).
  pose proof (Hall2 lo1 (proj1 (Hext lo1) Hin1)). lia.
Qed.

Lemma py_max_ext (l1 l2 : list Z) (hi : Z) :
  (forall v, v ∈ l1 <-> v ∈ l2) -> py_max l2 = inr hi -> py_max l1 = inr hi.
Proof.
  intros Hext Hhi.
  assert (Hne2 : l2 <> []) by (intros ->; discriminate).
  destruct (py_max_spec l2 Hne2) as (hi2 & Hhi2 & Hin2 & Hall2).
  rewrite Hhi in Hhi2. injection Hhi2 as <-.
  assert (Hne1 : l1 <> []).
  { intros ->. apply Hext in Hin2. inversion Hin2. }
  destruct (py_max_spec l1 Hne1) as (hi1 & Hhi1 & Hin1 & Hall1).
  rewrite Hhi1. f_equal. rewrite Forall_forall in Hall1, Hall2.
  pose proof (Hall1 hi (proj2 (Hext hi) Hin2)).
  pose proof (Hall2 hi1 (proj1 (Hext hi1) Hin1)). lia.
Qed.

Lemma year_table_keys (mds : list metadata) (k : string) :
  k ∈ od_keys (year_table mds) <-> exists md, md ∈ mds /\ year_of md = k.
Proof.
  unfold od_keys, year_table.
  rewrite (fmap_Permutation fst _ _ (py_sorted_Permutation item_ltb _)).
  pose proof (frequency_table_keys (map year_of mds)) as Hk. unfold od_keys in Hk.
  assert (Hiff : k ∈ map fst (frequency_table (map year_of mds))
                 <-> exists md, md ∈ mds /\ year_of md = k); [|exact Hiff].
  rewrite Hk, first_seen_elem_of, list_elem_of_In, in_map_iff.
  split; intros (md & Hmd & Hin); exists md; split; try done;
    by apply list_elem_of_In.
Qed.

(** X11: when the year of every record is an integer that is not
    negative, the summary shows the least and the largest of these
    integers: their strings are keys of digits, and [int] reads back the
    integer [str] wrote. *)
Theorem int_years_range (mds : list metadata) (ns : list Z)
    (p g pub : list (value * Z)) :
  mds <> [] ->
  Forall2 (fun md n => md !! "YearOfRelease" = Some (VInt n) /\ 0 <= n) mds ns ->
  let y := default [] (years (get_collection_stats (Some mds))) in
  exists lo hi,
    py_min ns = inr lo /\ py_max ns = inr hi
    /\ summary_statistics p g y pub
       = ([Text (nl ++ "📈 SUMMARY"); Text (str_mul "-" 40);
           YearRange lo hi;
           UniquePlatforms (Z.of_nat (length p));
           UniqueGenres (Z.of_nat (length g));
           UniquePublishers (Z.of_nat (length pub))], inr tt).
Proof.
  intros Hne Hall. cbv zeta.
  destruct (stats_tables mds) as (_ & _ & -> & _ & _).
  assert (Hext : forall v, v ∈ year_values (year_table mds) <-> v ∈ ns).
  { intros v. rewrite year_values_spec. split.
    - intros (k & Hk & _ & ->). apply year_table_keys in Hk as (md & Hmd & <-).
      destruct (Forall2_elem_of_l _ _ _ _ Hall Hmd) as (n & Hn & Hy & Hn0).
      unfold year_of, md_get. rewrite Hy. simpl.
      by rewrite (proj1 (py_int_pretty n Hn0)).
    - intros Hv. destruct (Forall2_elem_of_r _ _ _ _ Hall Hv) as (md & Hmd & Hy & Hn0).
      exists (pretty v). split_and!.
      + apply year_table_keys. exists md. split; [done|].
        unfold year_of, md_get. by rewrite Hy.
      + apply py_isdigit_spec, py_int_pretty, Hn0.
      + by rewrite (proj1 (py_int_pretty v Hn0)). }
  assert (Hns : ns <> []).
  { intros ->. apply Forall2_nil_inv_r in Hall. done. }
  destruct (py_min_spec ns Hns) as (lo & Hlo & _).
  destruct (py_max_spec ns Hns) as (hi & Hhi & _).
  exists lo, hi. split; [done|]. split; [done|].
  apply summary_statistics_printed.
  - by apply (py_min_ext _ ns).
  - by apply (py_max_ext _ ns).
Qed.

Lemma int_years_range_witness :
  let mds := [record_of [("Name", VStr "Doom"); ("YearOfRelease", VInt 1993)];
              record_of [("Name", VStr "Pong"); ("YearOfRelease", VInt 1972)]] in
  let y := default [] (years (get_collection_stats (Some mds))) in
  exists lo hi,
    py_min [1993; 1972] = inr lo /\ py_max [1993; 1972] = inr hi
    /\ summary_statistics [] [] y []
       = ([Text (nl ++ "📈 SUMMARY"); Text (str_mul "-" 40);
           YearRange lo hi;
           UniquePlatforms 0; UniqueGenres 0; UniquePublishers 0], inr tt).
Proof.
  apply (int_years_range
    [record_of [("Name", VStr "Doom"); ("YearOfRelease", VInt 1993)];
     record_of [("Name", VStr "Pong"); ("YearOfRelease", VInt 1972)]]
    [1993; 1972] [] [] []).
  - discriminate.
  - repeat constructor; reflexivity || lia.
Defined.

(** ** The platform and genre sections *)

Lemma ranked_section_printed (d : list (value * Z)) (k0 : value) (M : Z)
    (d' : list (value * Z)) :
  d = (k0, M) :: d' ->
  table_positive d -> StronglySorted count_desc d -> table_sum d <= 2 ^ 46 ->
  Forall (fun kc => is_str (fst kc)) (take 10 d) ->
  for_each (take 10 d) (fun '(k, c) => bar_line "█" (od_values d) (format_s k) c)
  = (map (fun kc => Bar "█" (py_str (fst kc)) (20 * snd kc / M) (snd kc))
       (take 10 d), inr tt).
Proof.
  intros Hd Hpos Hs Hsum Hstr.
  assert (HM : py_max (od_values d) = inr M).
  { rewrite Hd in Hs |- *. apply (ranked_max k0 M d' 0 Hs). }
  destruct (table_bars d M Hpos Hsum HM) as (_ & _ & Hbars).
  apply for_each_lines. intros [k c] Hkc.
  rewrite Forall_forall in Hstr. pose proof (Hstr _ Hkc) as Hk. simpl in Hk.
  destruct k as [s| |]; [|done|done].
  apply (take_subseteq 10) in Hkc. destruct (Hbars _ _ Hkc) as [Hb _].
  unfold bar_line. rewrite HM.
  change (lift (inr M) ≫= ?f) with (let '(out', r) := f M in ([] ++ out', r)).
  cbv beta. by rewrite Hb.
Qed.

(** X12: for at most [2^46] records whose platform and genre values
    shown are strings, the platform section and the genre section print
    their heading and one bar for each of the first ten entries of the
    table, in the order of the table; the bar has [floor (20 * count / M)]
    blocks, [M] being the count of the first entry. *)
Theorem ranked_sections_printed (mds : list metadata) :
  let s := get_collection_stats (Some mds) in
  let p := default [] (platforms s) in
  let g := default [] (genres s) in
  mds <> [] -> Z.of_nat (length mds) <= 2 ^ 46 ->
  Forall (fun kc => is_str (fst kc)) (take 10 p) ->
  Forall (fun kc => is_str (fst kc)) (take 10 g) ->
  display_platforms p
  = ([Text (nl ++ "🎮 GAMES BY PLATFORM"); Text (str_mul "-" 40)]
     ++ map (fun kc => Bar "█" (py_str (fst kc))
                         (20 * snd kc / default 0 (snd <$> head p)) (snd kc))
          (take 10 p), inr tt)
  /\ display_genres g
     = ([Text (nl ++ "🎯 GAMES BY GENRE"); Text (str_mul "-" 40)]
        ++ map (fun kc => Bar "█" (py_str (fst kc))
                            (20 * snd kc / default 0 (snd <$> head g)) (snd kc))
             (take 10 g), inr tt).
Proof.
  cbv zeta. destruct (stats_tables mds) as (_ & -> & _ & -> & _).
  intros Hne Hlen Hp Hg. unfold platform_table, genre_table in *.
  split.
  - destruct (py_sorted by_count_desc (frequency_table (map platform_of mds)))
      as [|[k0 M] d'] eqn:Hd.
    { exfalso. apply (proj1 (sorted_table_nil by_count_desc _)) in Hd.
      destruct mds; [done | discriminate]. }
    unfold display_platforms. cbn [nonempty when].
    rewrite (ranked_section_printed _ k0 M d' eq_refl); [done| | | |done];
      rewrite <- Hd.
    + apply sorted_table_positive.
    + apply by_count_desc_sorted.
    + rewrite sorted_table_sum, length_map. lia.
  - destruct (py_sorted by_count_desc (frequency_table (map genre_of mds)))
      as [|[k0 M] d'] eqn:Hd.
    { exfalso. apply (proj1 (sorted_table_nil by_count_desc _)) in Hd.
      destruct mds; [done | discriminate]. }
    unfold display_genres. cbn [nonempty when].
    rewrite (ranked_section_printed _ k0 M d' eq_refl); [done| | | |done];
      rewrite <- Hd.
    + apply sorted_table_positive.
    + apply by_count_desc_sorted.
    + rewrite sorted_table_sum, length_map. lia.
Qed.

(** Three records, of two platforms and one genre. *)
Definition three_games : list metadata :=
  [record_of [("Name", VStr "Super Mario World"); ("Platform", VStr "SNES");
              ("Genre", VStr "Platform")];
   record_of [("Name", VStr "Sonic"); ("Platform", VStr "Genesis");
              ("Genre", VStr "Platform")];
   record_of [("Name", VStr "Yoshi's Island"); ("Platform", VStr "SNES");
              ("Genre", VStr "Platform")]].

Lemma ranked_sections_printed_witness :
  let s := get_collection_stats (Some three_games) in
  display_platforms (default [] (platforms s))
  = ([Text (nl ++ "🎮 GAMES BY PLATFORM"); Text (str_mul "-" 40);
      Bar "█" "SNES" 20 2; Bar "█" "Genesis" 10 1], inr tt)
  /\ display_genres (default [] (genres s))
     = ([Text (nl ++ "🎯 GAMES BY GENRE"); Text (str_mul "-" 40);
         Bar "█" "Platform" 20 3], inr tt).
Proof.
  apply (ranked_sections_printed three_games).
  - discriminate.
  - vm_compute. discriminate.
  - apply (bool_decide_unpack _). vm_compute. exact I.
  - apply (bool_decide_unpack _). vm_compute. exact I.
Defined.

(** ** The entry point *)

Lemma test_search_returns (self : option collection) (query : string) :
  snd (test_search self query) = inr tt.
Proof.
  destruct self as [c|]; [|done]. unfold test_search.
  destruct (col_query c query 3) as [|r results]; [done|].
  cbn [map nonempty]. rewrite for_each_enumerate. reflexivity.
Qed.

(** X13: [main] prints what the constructor, the dashboard and the search
    print, in this order; the search is for the text given, and for
    "racing games" when there is none or when it is empty. When the
    dashboard raises, [main] raises the same and no search is made. *)
Theorem main_composition (persistent : option client) (memory : client)
    (search : option string) :
  let self := snd (init persistent memory) in
  let coll := default memory persistent "udaplay_games" in
  let query :=
    match search with
    | Some (String a s) => String a s
    | _ => "racing games"%string
    end in
  snd (init persistent memory) = inr coll
  /\ main persistent memory search
     = match raised (text_dashboard coll) with
       | Some e =>
           (printed (init persistent memory) ++ printed (text_dashboard coll),
            inl e)
       | None =>
           (printed (init persistent memory) ++ printed (text_dashboard coll)
            ++ printed (test_search coll query), inr tt)
       end.
Proof.
  cbv zeta.
  assert (Hinit : init persistent memory
                  = (match default memory persistent "udaplay_games" with
                     | Some _ => []
                     | None => [collection_not_found]
                     end, inr (default memory persistent "udaplay_games"))).
  { unfold init. destruct persistent as [cl|]; simpl;
      [destruct (cl "udaplay_games") | destruct (memory "udaplay_games")]; done. }
  split; [by rewrite Hinit|].
  unfold main. rewrite Hinit.
  set (coll := default memory persistent "udaplay_games").
  set (out0 := match coll with Some _ => [] | None => [collection_not_found] end).
  unfold mbind at 1. unfold Print_bind at 1. cbn [printed fst].
  assert (Hq : (if truthy search then test_search coll (default EmptyString search)
                else test_search coll "racing games")
               = test_search coll match search with
                                  | Some (String a s) => String a s
                                  | _ => "racing games"%string
                                  end).
  { by destruct search as [[|a s]|]. }
  rewrite Hq.
  set (q := match search with Some (String a s) => String a s | _ => _ end).
  pose proof (test_search_returns coll q) as Hts.
  destruct (text_dashboard coll) as [out [e|[]]]; unfold mbind, Print_bind, raised;
    simpl; [done|].
  destruct (test_search coll q) as [out' r]. simpl in Hts. by subst r.
Qed.

(** X14: when the collection is not found, [main] prints the notice of
    the constructor, the header with the "no data" notice, and the notice
    of the search, and returns. *)
Theorem main_without_collection (persistent : option client) (memory : client)
    (search : option string) :
  default memory persistent "udaplay_games" = None ->
  main persistent memory search
  = ([collection_not_found] ++ header
     ++ [no_data_notice; Text "Collection not available."], inr tt).
Proof.
  intros Hnone. unfold main, init.
  assert (Hcl : match persistent with Some cl => cl | None => memory end
                = default memory persistent) by (by destruct persistent).
  rewrite Hcl, Hnone. by destruct search as [[|a s]|].
Qed.

Lemma main_without_collection_witness :
  main None (fun _ => None) (Some "zelda"%string)
  = ([collection_not_found] ++ header
     ++ [no_data_notice; Text "Collection not available."], inr tt).
Proof.
  apply (main_without_collection None (fun _ => None) (Some "zelda"%string)).
  reflexivity.
Defined.

(** ** The publisher section *)

(** X15: the publisher section never raises, whatever the publisher
    values are: it prints one line for each of the first five entries of
    the stored table, and no entry it leaves out has a larger count than
    one it prints. *)
Theorem top_five_publishers (mds : list metadata) :
  let pub := default [] (publishers (get_collection_stats (Some mds))) in
  display_publishers pub
  = (match pub with
     | [] => []
     | _ => [Text (nl ++ "🏢 TOP PUBLISHERS"); Text (str_mul "-" 40)]
            ++ map (fun kc => PublisherLine (py_str (fst kc)) (snd kc)) (take 5 pub)
     end, inr tt)
  /\ forall a b, a ∈ take 5 pub -> b ∈ drop 5 pub -> snd b <= snd a.
Proof.
  cbv zeta. destruct (stats_tables mds) as (_ & _ & _ & _ & ->). split.
  - unfold display_publishers. destruct (publisher_table mds) as [|kc pub]; [done|].
    cbn [nonempty when].
    rewrite (for_each_lines _ _
      (fun kc => PublisherLine (py_str (fst kc)) (snd kc))); [done|].
    by intros [k c] _.
  - intros a b Ha Hb.
    assert (Hs : StronglySorted count_desc (publisher_table mds)).
    { apply StronglySorted_take, by_count_desc_sorted. }
    rewrite <- (take_drop 5 (publisher_table mds)) in Hs.
    apply (StronglySorted_app_elem_of _ _ _ _ _ Hs Ha Hb).
Qed.
